(** * MPS safety-limit calculation (calculation_template.ipynb)

    A shallow embedding of the notebook's code cells and the properties of
    the two tables it derives: the minimum attenuation and the maximum
    repetition rate.

    - [Float64]: the binary64 arithmetic the cells compute with, on the
      Standard Library's [SpecFloat] (precision 53, exponent bound 1024),
      with [rint] and numpy's [around].
    - [pd]: the fragment of pandas the cells use: frames with labelled rows
      and columns, column selection and assignment, label-based row
      selection, aligned arithmetic, element-wise maps.
    - the notebook itself: a kernel holding the notebook's global names and
      one state transformer per code cell. *)

From Stdlib Require Import ZArith Lia Bool Ascii.
From Stdlib Require Import Floats.SpecFloat.
From stdpp Require Import gmap strings list fin_maps sorting.

Local Open Scope Z_scope.

(** ** Binary64 floating point *)

Module Float64.

Definition prec : Z := 53.
Definition emax : Z := 1024.

Abbreviation float := spec_float.

(** A Python [int] (or an integer literal such as [1000.]) as a float. *)
Definition of_Z (z : Z) : float := binary_normalize prec emax z 0 false.

Definition zero : float := S754_zero false.
Definition neg_zero : float := S754_zero true.
Definition one : float := of_Z 1.
Definition inf : float := S754_infinity false.
Definition nan : float := S754_nan.

Definition sub : float -> float -> float := SFsub prec emax.
Definition mul : float -> float -> float := SFmul prec emax.
Definition div : float -> float -> float := SFdiv prec emax.

Definition ltb : float -> float -> bool := SFltb.
Definition leb : float -> float -> bool := SFleb.
Definition eqb : float -> float -> bool := SFeqb.

Definition is_nan (x : float) : bool :=
  match x with S754_nan => true | _ => false end.



(** [m / 2^k] rounded to the nearest integer, ties to the even one. *)
Definition round_half_even (m k : Z) : Z :=
  let q := Z.shiftr m k in
  match Z.land m (Z.ones k) ?= Z.shiftl 1 (k - 1) with
  | Lt => q
  | Gt => q + 1
  | Eq => if Z.even q then q else q + 1
  end.

(** C's [rint] in the default rounding mode, the ufunc behind
    [numpy.rint]: the nearest integral float, ties to even; zeros,
    infinities and NaN are returned as they are, and a value that rounds
    to zero keeps its sign. *)
Definition rint (x : float) : float :=
  match x with
  | S754_finite s m e =>
      if 0 <=? e then x
      else match round_half_even (Z.pos m) (- e) with
           | Z0 => S754_zero s
           | Z.pos n => binary_round prec emax s n 0
           | Z.neg _ => S754_nan
           end
  | _ => x
  end.

(** [numpy.around(x, decimals)] for [decimals >= 0], which is what
    [DataFrame.round] applies to every float cell: [rint x] for zero
    decimals, otherwise [rint (x * 10**decimals) / 10**decimals]. *)
Definition around (decimals : nat) (x : float) : float :=
  match decimals with
  | O => rint x
  | _ => let f := of_Z (10 ^ Z.of_nat decimals) in div (rint (mul x f)) f
  end.

End Float64.

Import Float64.

#[global] Arguments of_Z : simpl never.
#[global] Arguments rint : simpl never.
#[global] Arguments around : simpl never.

(** ** Exceptions *)

Inductive exn :=
| IndexError
| KeyError (key : string)
| ValueError
| NameError (name : string).

Inductive result (A : Type) :=
| Ok (a : A)
| Raise (e : exn).
Arguments Ok {A} a.
Arguments Raise {A} e.

#[global] Instance result_ret : MRet result := fun A a => Ok a.
#[global] Instance result_bind : MBind result := fun A B f m =>
  match m with
  | Ok a => f a
  | Raise e => Raise e
  end.

(** [for x in xs: body], threading the state and stopping at the first
    exception. *)
Fixpoint for_each {A S : Type} (xs : list A) (body : A -> S -> result S) (s : S)
  : result S :=
  match xs with
  | [] => Ok s
  | x :: rest => s' ← body x s; for_each rest body s'
  end.

(** ** The pandas fragment *)

Module pd.

(** A column with its row labels. *)
Record Series := { s_index : list string; s_values : list float }.

(** A table: row labels (which may repeat), column labels in order, and
    the cells, one list per column label. [read_csv] makes the column
    labels distinct (it renames repeated headers). *)
Record DataFrame := {
  index : list string;
  columns : list string;
  data : gmap string (list float)
}.

(** What [read_csv] and the frame operations maintain: distinct column
    labels, one stored column per label, one cell per row in each. *)
Definition wf (df : DataFrame) : Prop :=
  NoDup (columns df) /\
  (forall c, c ∈ columns df <-> is_Some (data df !! c)) /\
  (forall c col, data df !! c = Some col -> length col = length (index df)).

(** [pd.DataFrame(x, index=idx, columns=cols)] *)
Definition full (x : float) (idx cols : list string) : DataFrame :=
  {| index := idx;
     columns := cols;
     data := list_to_map ((fun c => (c, replicate (length idx) x)) <$> cols) |}.

(** [df[c]] *)
Definition getitem (df : DataFrame) (c : string) : result Series :=
  match data df !! c with
  | Some col => Ok {| s_index := index df; s_values := col |}
  | None => Raise (KeyError c)
  end.

(** The value of an arithmetic expression: a number or a column. *)
Inductive value :=
| Scalar (x : float)
| Column (s : Series).

(** *** Row selection by label *)

Fixpoint positions_from (i : nat) (label : string) (idx : list string)
  : list nat :=
  match idx with
  | [] => []
  | l :: rest =>
      if decide (l = label) then i :: positions_from (S i) label rest
      else positions_from (S i) label rest
  end.

Definition positions : string -> list string -> list nat := positions_from 0.

(** [df.loc[label]] is a row when one row carries the label, and a frame
    of all the rows carrying it when several do. *)
Inductive selection :=
| Row (r : gmap string float)
| Rows (sub : DataFrame).

Definition loc (df : DataFrame) (label : string) : result selection :=
  match positions label (index df) with
  | [] => Raise (KeyError label)
  | [i] => Ok (Row (omap (fun col : list float => col !! i) (data df)))
  | ps =>
      Ok (Rows {| index := replicate (length ps) label;
                  columns := columns df;
                  data := (fun col : list float =>
                             omap (fun i : nat => col !! i) ps) <$> data df |})
  end.

(** [df.loc[label][c]]: a number out of a row, a column out of a frame. *)
Definition item (sel : selection) (c : string) : result value :=
  match sel with
  | Row r =>
      match r !! c with
      | Some x => Ok (Scalar x)
      | None => Raise (KeyError c)
      end
  | Rows sub => s ← getitem sub c; Ok (Column s)
  end.

(** *** Arithmetic *)

(** Operands with different row labels are aligned first: the result is
    indexed by the sorted union of the labels, a label carried by [n]
    cells on the left and [m] on the right gives [n * m] cells, and a
    label missing on one side computes with NaN. *)
Definition cells_at (label : string) (s : Series) : list float :=
  match (fun i : nat => s_values s !! i) <$> positions label (s_index s) with
  | [] => [nan]
  | xs => (fun o : option float => default nan o) <$> xs
  end.

Definition join_labels (a b : list string) : list string :=
  remove_dups (merge_sort (fun x y => Is_true (String.leb x y)) (a ++ b)).

Definition align (f : float -> float -> float) (a b : Series) : Series :=
  let rows :=
    l ← join_labels (s_index a) (s_index b);
    x ← cells_at l a;
    y ← cells_at l b;
    [(l, f x y)] in
  {| s_index := rows.*1; s_values := rows.*2 |}.

Definition binop (f : float -> float -> float) (a b : value) : value :=
  match a, b with
  | Scalar x, Scalar y => Scalar (f x y)
  | Scalar x, Column s =>
      Column {| s_index := s_index s; s_values := f x <$> s_values s |}
  | Column s, Scalar y =>
      Column {| s_index := s_index s;
                s_values := (fun x => f x y) <$> s_values s |}
  | Column s1, Column s2 =>
      if decide (s_index s1 = s_index s2)
      then Column {| s_index := s_index s1;
                     s_values := zip_with f (s_values s1) (s_values s2) |}
      else Column (align f s1 s2)
  end.

Definition truediv : value -> value -> value := binop div.
Definition subtract : value -> value -> value := binop sub.

(** *** Column assignment *)

Definition assign (df : DataFrame) (c : string) (col : list float)
  : DataFrame :=
  {| index := index df;
     columns := if decide (c ∈ columns df) then columns df
                else columns df ++ [c];
     data := <[c := col]> (data df) |}.

(** A frame without rows takes over the row labels of the first
    non-empty column assigned to it; its other columns become NaN. *)
Definition ensure_valid_index (df : DataFrame) (s : Series) : DataFrame :=
  match index df, s_index s with
  | [], _ :: _ =>
      {| index := s_index s;
         columns := columns df;
         data := (fun _ : list float => replicate (length (s_index s)) nan)
                   <$> data df |}
  | _, _ => df
  end.

(** The cells of [s] in the order of [idx]; NaN where [s] has no such
    label. *)
Definition reindex (s : Series) (idx : list string) : list float :=
  (fun l => default nan (i ← head (positions l (s_index s));
                         s_values s !! i)) <$> idx.

(** [df[c] = v]. A column whose labels are those of the frame is stored as
    it is; another one is re-ordered by label, which pandas refuses when
    the column's labels repeat. *)
Definition setitem (df : DataFrame) (c : string) (v : value)
  : result DataFrame :=
  match v with
  | Scalar x => Ok (assign df c (replicate (length (index df)) x))
  | Column s =>
      let df := ensure_valid_index df s in
      if decide (s_index s = index df) then Ok (assign df c (s_values s))
      else if decide (NoDup (s_index s))
           then Ok (assign df c (reindex s (index df)))
           else Raise ValueError
  end.

(** *** Element-wise operations on a whole frame *)

Definition map_frame (f : float -> float) (df : DataFrame) : DataFrame :=
  {| index := index df;
     columns := columns df;
     data := (fun col : list float => f <$> col) <$> data df |}.

(** [df[df > bound] = x] *)
Definition clip_above (bound x : float) : DataFrame -> DataFrame :=
  map_frame (fun v => if ltb bound v then x else v).

(** [df.round(decimals)] *)
Definition round (decimals : nat) : DataFrame -> DataFrame :=
  map_frame (around decimals).

(** [x - df] *)
Definition rsub (x : float) : DataFrame -> DataFrame :=
  map_frame (sub x).

(** The cell in row position [b] of column [e]. *)
Definition cell (df : DataFrame) (b : nat) (e : string) : option float :=
  col ← data df !! e; col !! b.

End pd.

#[global] Arguments pd.setitem : simpl never.
#[global] Arguments pd.loc : simpl never.

(** ** The notebook *)

(** The notebook's global names, unbound until a cell assigns them, and the
    files written by [to_csv]. *)
Record Kernel := {
  max_reqs : option pd.DataFrame;
  max_pulse : option pd.DataFrame;
  state_name : option string;
  min_attenuation : option pd.DataFrame;
  max_pulse_rate : option pd.DataFrame;
  written : list (string * pd.DataFrame)
}.

Definition fresh : Kernel :=
  {| max_reqs := None; max_pulse := None; state_name := None;
     min_attenuation := None; max_pulse_rate := None; written := [] |}.

Definition var {A : Type} (name : string) (o : option A) : result A :=
  match o with
  | Some a => Ok a
  | None => Raise (NameError name)
  end.

Definition set_min_attenuation (df : pd.DataFrame) (k : Kernel) : Kernel :=
  {| max_reqs := max_reqs k; max_pulse := max_pulse k;
     state_name := state_name k; min_attenuation := Some df;
     max_pulse_rate := max_pulse_rate k; written := written k |}.

Definition set_max_pulse_rate (df : pd.DataFrame) (k : Kernel) : Kernel :=
  {| max_reqs := max_reqs k; max_pulse := max_pulse k;
     state_name := state_name k; min_attenuation := min_attenuation k;
     max_pulse_rate := Some df; written := written k |}.

(** Cell "Load the requirements files via CSV"; [reqs] and [beam] are the
    tables [read_csv] returns for [req_file] and ['beam.csv']. *)
Definition load (reqs beam : pd.DataFrame) (k : Kernel) : result Kernel :=
  match pd.index reqs with
  | [] => Raise IndexError
  | first :: _ =>
      Ok {| max_reqs := Some reqs; max_pulse := Some beam;
            state_name := Some first;
            min_attenuation := min_attenuation k;
            max_pulse_rate := max_pulse_rate k; written := written k |}
  end.

(** Cell "Create empty versions of the final tables". *)
Definition create_tables (k : Kernel) : result Kernel :=
  beam ← var "max_pulse" (max_pulse k);
  let empty := pd.full zero (pd.index beam) (pd.columns beam) in
  Ok (set_max_pulse_rate empty (set_min_attenuation empty k)).

(** Cell "Required Attenuation": the body of the loop,
    [min_attenuation[pulse_energy] =
       max_reqs.loc[state_name][pulse_energy] / (max_pulse[pulse_energy]/1000.)] *)
Definition attenuation_body (pulse_energy : string) (k : Kernel)
  : result Kernel :=
  reqs ← var "max_reqs" (max_reqs k);
  name ← var "state_name" (state_name k);
  row ← pd.loc reqs name;
  allowed ← pd.item row pulse_energy;
  beam ← var "max_pulse" (max_pulse k);
  predicted ← pd.getitem beam pulse_energy;
  table ← var "min_attenuation" (min_attenuation k);
  table' ← pd.setitem table pulse_energy
             (pd.truediv allowed
                (pd.truediv (pd.Column predicted) (pd.Scalar (of_Z 1000))));
  Ok (set_min_attenuation table' k).

Definition required_attenuation (k : Kernel) : result Kernel :=
  beam ← var "max_pulse" (max_pulse k);
  k ← for_each (pd.columns beam) attenuation_body k;
  (* No such thing as allowing more than 100% transmission *)
  table ← var "min_attenuation" (min_attenuation k);
  let k := set_min_attenuation (pd.clip_above one one table) k in
  (* Modify precision *)
  table ← var "min_attenuation" (min_attenuation k);
  let k := set_min_attenuation (pd.round 2 table) k in
  (* 1 - max_transmission = minimum_attenuation *)
  table ← var "min_attenuation" (min_attenuation k);
  Ok (set_min_attenuation (pd.rsub one table) k).

(** Cell "Maximum Repetition Rate": the body of the loop,
    [max_pulse_rate[pulse_energy] =
       max_reqs.loc[state_name]['Power'] / (max_pulse[pulse_energy]/1000000.) / 1
       - min_attenuation[pulse_energy]] *)
Definition rate_body (pulse_energy : string) (k : Kernel) : result Kernel :=
  reqs ← var "max_reqs" (max_reqs k);
  name ← var "state_name" (state_name k);
  row ← pd.loc reqs name;
  power ← pd.item row "Power";
  beam ← var "max_pulse" (max_pulse k);
  predicted ← pd.getitem beam pulse_energy;
  attenuation ← var "min_attenuation" (min_attenuation k);
  att ← pd.getitem attenuation pulse_energy;
  table ← var "max_pulse_rate" (max_pulse_rate k);
  table' ← pd.setitem table pulse_energy
             (pd.subtract
                (pd.truediv
                   (pd.truediv power
                      (pd.truediv (pd.Column predicted)
                         (pd.Scalar (of_Z 1000000))))
                   (pd.Scalar (of_Z 1)))
                (pd.Column att));
  Ok (set_max_pulse_rate table' k).

Definition maximum_repetition_rate (k : Kernel) : result Kernel :=
  beam ← var "max_pulse" (max_pulse k);
  k ← for_each (pd.columns beam) rate_body k;
  table ← var "max_pulse_rate" (max_pulse_rate k);
  Ok (set_max_pulse_rate (pd.round 0 table) k).

(** Cell "Store Requirements". *)
Fixpoint replace_space (s : string) : string :=
  match s with
  | EmptyString => EmptyString
  | String c rest =>
      String (if Ascii.eqb c " "%char then "_"%char else c) (replace_space rest)
  end.

Definition store (k : Kernel) : result Kernel :=
  name ← var "state_name" (state_name k);
  let filename_prefix := replace_space name in
  attenuation ← var "min_attenuation" (min_attenuation k);
  rate ← var "max_pulse_rate" (max_pulse_rate k);
  Ok {| max_reqs := max_reqs k; max_pulse := max_pulse k;
        state_name := state_name k; min_attenuation := min_attenuation k;
        max_pulse_rate := max_pulse_rate k;
        written := written k ++
                   [(filename_prefix +:+ "_min_attenuation.csv", attenuation);
                    (filename_prefix +:+ "_max_rep_rate.csv", rate)] |}.

(** Running the code cells in order in a kernel [k]. The cells that only
    display a table or draw the plot leave the names above untouched and are
    not part of the calculation. *)
Definition run_all (reqs beam : pd.DataFrame) (k : Kernel) : result Kernel :=
  k ← load reqs beam k;
  k ← create_tables k;
  k ← required_attenuation k;
  k ← maximum_repetition_rate k;
  store k.

(** The two derived tables of a finished run. *)
Definition tables (k : Kernel) : option (pd.DataFrame * pd.DataFrame) :=
  mn ← min_attenuation k; mx ← max_pulse_rate k; Some (mn, mx).

Definition calculation (reqs beam : pd.DataFrame)
  : result (pd.DataFrame * pd.DataFrame) :=
  k ← run_all reqs beam fresh;
  match tables k with
  | Some t => Ok t
  | None => Raise (NameError "min_attenuation")
  end.

(** *** The scenario tables *)

Definition frame_of (idx : list string) (cols : list (string * list float))
  : pd.DataFrame :=
  {| pd.index := idx; pd.columns := cols.*1; pd.data := list_to_map cols |}.

Definition open_reqs : pd.DataFrame :=
  frame_of ["OPEN"] [("8.0", [of_Z 10]); ("Power", [of_Z 5])].

Definition beam_12mJ : pd.DataFrame :=
  frame_of ["100pC"] [("8.0", [of_Z 12000])].

(** ** What one run computes in a cell *)

(** [min_attenuation[min_attenuation > 1.] = 1.] on one cell. *)
Definition clip (v : float) : float := if ltb one v then one else v.

(** The three statements after the first loop, on the allowed transmission
    [t / (p / 1000.)] of a cell: clamp, round to two decimals, subtract
    from 1. *)
Definition attenuation_cell (t p : float) : float :=
  sub one (around 2 (clip (div t (div p (of_Z 1000))))).

(** The right-hand side of the second loop and the rounding after it, for
    the power tolerance [P], the predicted pulse energy [p] and the stored
    attenuation [a] of the cell. *)
Definition rate_cell (P p a : float) : float :=
  around 0 (sub (div (div P (div p (of_Z 1000000))) (of_Z 1)) a).

(** The requirements table names its state once: the label of the first
    row is not repeated further down. *)
Definition single_row (reqs : pd.DataFrame) : Prop :=
  exists name rest, pd.index reqs = name :: rest /\ name ∉ rest.

(** The kernel after the loading cell. *)
Definition loaded (reqs beam : pd.DataFrame) (name : string) (k : Kernel) : Prop :=
  max_reqs k = Some reqs /\ max_pulse k = Some beam /\ state_name k = Some name.

(** The column the first loop stores under the label [c]. *)
Definition transmission_column (reqs beam : pd.DataFrame) (c : string)
  : option (list float) :=
  match pd.cell reqs 0 c, pd.data beam !! c with
  | Some t, Some col => Some (div t <$> ((fun x => div x (of_Z 1000)) <$> col))
  | _, _ => None
  end.

(** ** Notions for the rounding proofs *)

(** The round or the sticky bit of a shifted mantissa is set. *)
Definition inexact (mrs : shr_record) : bool := shr_r mrs || shr_s mrs.

(** [b] is [a] shifted right by [k] bits. *)
Definition shr_rel (k : Z) (a b : shr_record) : Prop :=
  0 <= shr_m b /\
  shr_m b = shr_m a / 2 ^ k /\
  inexact b = inexact a || negb (shr_m a mod 2 ^ k =? 0).

(** The number of bits [shr_fexp] drops from the mantissa [M] at the
    exponent [E]. *)
Definition shift_of (M E : Z) : Z := fexp prec emax (Zdigits2 M + E) - E.

(** The mantissa kept after the first shift and the rounding. *)
Definition rounded (M E : Z) (l : location) : Z :=
  round_nearest_even (shr_m (fst (shr_fexp prec emax M E l)))
    (loc_of_shr_record (fst (shr_fexp prec emax M E l))).

(** The shift that renormalises a mantissa the rounding has carried. *)
Definition second_shift (M E : Z) (l : location) : shr_record * Z :=
  shr_fexp prec emax (rounded M E l) (snd (shr_fexp prec emax M E l)) loc_Exact.

(** A float with at most 53 mantissa bits. *)
Definition bounded53 (x : float) : Prop :=
  match x with
  | S754_finite _ m _ => Z.pos m < 2 ^ 53
  | _ => True
  end.

(** A number whose sign bit is clear: [+0.0], a positive number or
    +infinity. *)
Definition sign_clear (x : float) : Prop :=
  match x with
  | S754_zero s | S754_infinity s | S754_finite s _ _ => s = false
  | S754_nan => False
  end.

(** A float in [[0, 1]]. *)
Definition unit_interval (x : float) : Prop :=
  match x with
  | S754_zero _ => True
  | S754_finite s m e => s = false /\ e <= - 52 /\ Z.pos m <= 2 ^ (- e)
  | _ => False
  end.

(** A float in [[0, 100]]. *)
Definition upto_100 (x : float) : Prop :=
  match x with
  | S754_zero _ => True
  | S754_finite s m e => s = false /\ e <= - 46 /\ Z.pos m <= 100 * 2 ^ (- e)
  | _ => False
  end.

(** The integral floats [rint] returns on [[0, 100]]. *)
Definition small_integer (s : bool) (N : Z) : float :=
  match N with
  | 0 => S754_zero s
  | Z.pos n => binary_round prec emax false n 0
  | Z.neg _ => nan
  end.

(** The attenuation [1 - N/100] lies between 0 and 1. *)
Definition attenuation_ok (s : bool) (N : Z) : bool :=
  let a := sub one (div (small_integer s N) (of_Z 100)) in
  leb zero a && leb a one.

(** The column of the finished attenuation table under the label [c]. *)
Definition attenuation_column (reqs beam : pd.DataFrame) (c : string)
  : option (list float) :=
  match pd.cell reqs 0 c, pd.data beam !! c with
  | Some t, Some col => Some (attenuation_cell t <$> col)
  | _, _ => None
  end.

(** The column the second loop stores under the label [c], given the
    attenuation table [att]. *)
Definition rate_sum_column (reqs beam att : pd.DataFrame) (c : string)
  : option (list float) :=
  match pd.cell reqs 0 "Power", pd.data beam !! c, pd.data att !! c with
  | Some P, Some col, Some acol =>
      Some (zip_with sub
              ((fun x => div x (of_Z 1)) <$>
                 (div P <$> ((fun x => div x (of_Z 1000000)) <$> col)))
              acol)
  | _, _, _ => None
  end.

(** The column of the finished repetition-rate table under the label [c]. *)
Definition rate_column (reqs beam att : pd.DataFrame) (c : string)
  : option (list float) :=
  (fun col : list float => around 0 <$> col) <$> rate_sum_column reqs beam att c.

(** The kernel after the loading cell and the cell that creates the
    tables, started in [k]. *)
Definition prepared (reqs beam : pd.DataFrame) (name : string) (k : Kernel)
  : Kernel :=
  let empty := pd.full zero (pd.index beam) (pd.columns beam) in
  {| max_reqs := Some reqs; max_pulse := Some beam; state_name := Some name;
     min_attenuation := Some empty; max_pulse_rate := Some empty;
     written := written k |}.

(** What the finished run leaves in the kernel: the two tables with the
    labels of the beam-power table and the columns computed from the first
    requirement row. *)
Definition finished (reqs beam : pd.DataFrame) (k0 k : Kernel) : Prop :=
  exists mn mx,
    min_attenuation k = Some mn /\ max_pulse_rate k = Some mx /\
    pd.index mn = pd.index beam /\ pd.columns mn = pd.columns beam /\
    pd.index mx = pd.index beam /\ pd.columns mx = pd.columns beam /\
    (forall c, pd.data mn !! c
               = if decide (c ∈ pd.columns beam)
                 then attenuation_column reqs beam c else None) /\
    (forall c, pd.data mx !! c
               = if decide (c ∈ pd.columns beam)
                 then rate_column reqs beam mn c else None) /\
    (forall c, c ∈ pd.columns beam ->
               is_Some (attenuation_column reqs beam c) /\
               is_Some (rate_column reqs beam mn c)) /\
    exists name,
      head (pd.index reqs) = Some name /\
      written k = written k0 ++
                  [(replace_space name +:+ "_min_attenuation.csv", mn);
                   (replace_space name +:+ "_max_rep_rate.csv", mx)].

(** ** Kernels that compute the same tables *)

(** The row (or rows) both loops select from the requirements table. *)
Definition selected (k : Kernel) : result pd.selection :=
  reqs ← var "max_reqs" (max_reqs k);
  name ← var "state_name" (state_name k);
  pd.loc reqs name.

(** Two kernels agree on everything the calculation reads from now on. *)
Definition agree (k1 k2 : Kernel) : Prop :=
  selected k1 = selected k2 /\
  max_pulse k1 = max_pulse k2 /\
  state_name k1 = state_name k2 /\
  min_attenuation k1 = min_attenuation k2 /\
  max_pulse_rate k1 = max_pulse_rate k2.

Definition agree_result (r1 r2 : result Kernel) : Prop :=
  match r1, r2 with
  | Ok k1, Ok k2 => agree k1 k2
  | Raise e1, Raise e2 => e1 = e2
  | _, _ => False
  end.

(** What a run shows to its user: the two tables, or the exception. *)
Definition outcome (r : result Kernel)
  : result (option (pd.DataFrame * pd.DataFrame)) :=
  match r with
  | Ok k => Ok (tables k)
  | Raise e => Raise e
  end.

(** ** Scenarios *)

(** A predicted pulse energy of zero, and of negative zero. *)
Definition beam_zero : pd.DataFrame :=
  frame_of ["100pC"] [("8.0", [zero])].

Definition beam_neg_zero : pd.DataFrame :=
  frame_of ["100pC"] [("8.0", [neg_zero])].

(** A state that tolerates no pulse energy at 8 keV. *)
Definition closed_reqs : pd.DataFrame :=
  frame_of ["CLOSED"] [("8.0", [zero]); ("Power", [of_Z 5])].



(** The first row of [open_reqs], followed by a second row with the same
    label. *)
Definition repeated_reqs : pd.DataFrame :=
  frame_of ["OPEN"; "OPEN"]
    [("8.0", [of_Z 10; of_Z 20]); ("Power", [of_Z 5; of_Z 6])].

(** The cell of each derived table that a calculation returns. *)
Definition attenuation_at (reqs beam : pd.DataFrame) (b : nat) (e : string)
  : option float :=
  match calculation reqs beam with
  | Ok (mn, _) => pd.cell mn b e
  | Raise _ => None
  end.

Definition rate_at (reqs beam : pd.DataFrame) (b : nat) (e : string)
  : option float :=
  match calculation reqs beam with
  | Ok (_, mx) => pd.cell mx b e
  | Raise _ => None
  end.

(** The kernel a run leaves behind, for the runs that finish. *)
Definition kernel_of (reqs beam : pd.DataFrame) : Kernel :=
  match run_all reqs beam fresh with
  | Ok k => k
  | Raise _ => fresh
  end.

(** The row of [open_reqs], followed by the row of another state. *)
Definition two_state_reqs : pd.DataFrame :=
  frame_of ["OPEN"; "CLOSED"]
    [("8.0", [of_Z 10; zero]); ("Power", [of_Z 5; of_Z 1])].

(** ** Notions for the properties of a whole run *)


(** Every global name of the notebook is bound. *)
Definition bound (k : Kernel) : Prop :=
  is_Some (max_reqs k) /\ is_Some (max_pulse k) /\ is_Some (state_name k) /\
  is_Some (min_attenuation k) /\ is_Some (max_pulse_rate k).

(** [k'] holds the input tables, the state name and the written files of
    [k]. *)
Definition same_inputs (k k' : Kernel) : Prop :=
  max_reqs k' = max_reqs k /\ max_pulse k' = max_pulse k /\
  state_name k' = state_name k /\ written k' = written k.

(** Both derived tables of [k] carry the labels of [beam]. *)
Definition shaped (beam : pd.DataFrame) (k : Kernel) : Prop :=
  exists mn mx,
    min_attenuation k = Some mn /\ max_pulse_rate k = Some mx /\
    pd.index mn = pd.index beam /\ pd.columns mn = pd.columns beam /\
    pd.index mx = pd.index beam /\ pd.columns mx = pd.columns beam.

(** ** Further scenarios *)


(** A requirement row without the column Power. *)
Definition powerless_reqs : pd.DataFrame :=
  frame_of ["OPEN"] [("8.0", [of_Z 10])].

(** A beam-power table with a row and no photon-energy column. *)
Definition beam_no_columns : pd.DataFrame :=
  frame_of ["100pC"] [].


(** A beam-power table with an empty cell. *)
Definition beam_nan : pd.DataFrame :=
  frame_of ["100pC"] [("8.0", [nan])].

(** Two photon energies, of which [open_reqs] and [powerless_reqs] have the
    first only. *)
Definition beam_two_columns : pd.DataFrame :=
  frame_of ["100pC"] [("8.0", [of_Z 12000]); ("9.0", [of_Z 9000])].

(** Another state name, a further column and a further row around the cells
    of [open_reqs]. *)
Definition other_state_reqs : pd.DataFrame :=
  frame_of ["IN"; "OUT"]
    [("7.0", [of_Z 3; of_Z 4]); ("8.0", [of_Z 10; zero]);
     ("Power", [of_Z 5; of_Z 1])].

(** ** The data of the plot cell *)

(** [df.drop(label, axis=1)] *)
Definition drop (label : string) (df : pd.DataFrame) : result pd.DataFrame :=
  if decide (label ∈ pd.columns df)
  then Ok {| pd.index := pd.index df;
             pd.columns := filter (fun c => c <> label) (pd.columns df);
             pd.data := delete label (pd.data df) |}
  else Raise (KeyError ("['" +:+ label +:+ "'] not found in axis")).

(** [energy = max_reqs.drop('Power', axis=1)] *)
Definition energy (k : Kernel) : result pd.DataFrame :=
  reqs ← var "max_reqs" (max_reqs k);
  drop "Power" reqs.

(** The ordinates handed to [ax.plot]: [energy.loc[state_name]]. The
    abscissae [float(idx)] and the drawing itself are left out. *)
Definition ordinates (k : Kernel) : result pd.selection :=
  e ← energy k;
  name ← var "state_name" (state_name k);
  pd.loc e name.

(** * Binary64 lemmas *)

Section Digits.

Lemma digits2_pos_size (p : positive) : digits2_pos p = Pos.size p.
Proof. induction p; simpl; congruence. Qed.

Lemma Zdigits2_bounds (m : Z) :
  0 < m -> 2 ^ (Zdigits2 m - 1) <= m < 2 ^ Zdigits2 m.
Proof.
  destruct m as [|p|p]; try lia. intros _. simpl Zdigits2.
  rewrite digits2_pos_size.
  pose proof (Pos.size_gt p) as Hgt. pose proof (Pos.size_le p) as Hle.
  apply Pos2Z.pos_lt_pos in Hgt. apply Pos2Z.pos_le_pos in Hle.
  rewrite Pos2Z.inj_pow in Hgt, Hle.
  assert (2 ^ Z.pos (Pos.size p) = 2 * 2 ^ (Z.pos (Pos.size p) - 1)) as Hpow
    by (rewrite <- Z.pow_succ_r by lia; f_equal; lia).
  lia.
Qed.

Lemma Zdigits2_nonneg (m : Z) : 0 <= Zdigits2 m.
Proof. destruct m; simpl; lia. Qed.

Lemma Zdigits2_le (m k : Z) : 0 <= m -> 0 <= k -> m < 2 ^ k -> Zdigits2 m <= k.
Proof.
  intros Hm Hk Hlt. destruct (Z.eq_dec m 0) as [->|Hne]; [simpl; lia|].
  destruct (Zdigits2_bounds m) as [Hlo _]; [lia|].
  destruct (Z.le_gt_cases (Zdigits2 m) k) as [|Hgt]; [done|].
  assert (2 ^ k <= 2 ^ (Zdigits2 m - 1)) by (apply Z.pow_le_mono_r; lia). lia.
Qed.

Lemma Zdigits2_gt (m k : Z) : 0 <= k -> 2 ^ k <= m -> k < Zdigits2 m.
Proof.
  intros Hk Hle. assert (0 < m) by (pose proof (Z.pow_pos_nonneg 2 k); lia).
  destruct (Zdigits2_bounds m) as [_ Hhi]; [lia|].
  apply (Z.pow_lt_mono_r_iff 2); [lia|apply Zdigits2_nonneg|lia].
Qed.

End Digits.

(** The right shift with its round and sticky bits. *)
Section Shr.

Lemma shr_rel_1 (a : shr_record) : 0 <= shr_m a -> shr_rel 1 a (shr_1 a).
Proof.
  destruct a as [m r s]. unfold shr_rel, inexact. simpl shr_m.
  change (2 ^ 1) with 2. intros Hm.
  destruct m as [|[p|p|]|]; try lia; simpl shr_1; cbn [shr_m shr_r shr_s].
  - repeat split; try reflexivity. destruct r, s; reflexivity.
  - repeat split; [lia| |].
    + apply Z.div_unique with 1; lia.
    + replace (Z.pos p~1 mod 2) with 1
        by (apply Z.mod_unique with (Z.pos p); lia).
      destruct r, s; reflexivity.
  - repeat split; [lia| |].
    + apply Z.div_unique with 0; lia.
    + replace (Z.pos p~0 mod 2) with 0
        by (apply Z.mod_unique with (Z.pos p); lia).
      destruct r, s; reflexivity.
  - repeat split; try reflexivity. destruct r, s; reflexivity.
Qed.

Lemma shr_rel_trans (j k : Z) (a b c : shr_record) :
  0 <= shr_m a -> 0 < j -> 0 < k ->
  shr_rel j a b -> shr_rel k b c -> shr_rel (j + k) a c.
Proof.
  intros Ha Hj Hk (Hb & Hmb & Hib) (Hc & Hmc & Hic).
  assert (0 < 2 ^ j) by (apply Z.pow_pos_nonneg; lia).
  assert (0 < 2 ^ k) by (apply Z.pow_pos_nonneg; lia).
  split; [done|]. rewrite Z.pow_add_r by lia. split.
  - rewrite Hmc, Hmb, Z.div_div by lia. reflexivity.
  - rewrite Hic, Hib, Hmb. rewrite Z.rem_mul_r by lia.
    pose proof (Z.mod_pos_bound (shr_m a) (2 ^ j)).
    pose proof (Z.mod_pos_bound (shr_m a / 2 ^ j) (2 ^ k)).
    destruct (Z.eqb_spec (shr_m a mod 2 ^ j) 0) as [E1|E1];
      destruct (Z.eqb_spec (shr_m a / 2 ^ j mod 2 ^ k) 0) as [E2|E2];
      destruct (Z.eqb_spec (shr_m a mod 2 ^ j + 2 ^ j * (shr_m a / 2 ^ j mod 2 ^ k)) 0) as [E3|E3];
      try (destruct (inexact a); reflexivity); exfalso; nia.
Qed.

Lemma iter_pos_shr (p : positive) (a : shr_record) :
  0 <= shr_m a -> shr_rel (Z.pos p) a (SpecFloat.iter_pos shr_1 p a).
Proof.
  revert a. induction p as [p IH|p IH|]; intros a Ha; simpl SpecFloat.iter_pos.
  - pose proof (shr_rel_1 a Ha) as H1.
    assert (0 <= shr_m (shr_1 a)) as Ha1 by apply H1.
    pose proof (IH _ Ha1) as H2.
    assert (0 <= shr_m (SpecFloat.iter_pos shr_1 p (shr_1 a))) as Ha2 by apply H2.
    pose proof (IH _ Ha2) as H3.
    replace (Z.pos p~1) with (1 + Z.pos p + Z.pos p) by lia.
    eapply shr_rel_trans; [done|lia|lia| |exact H3].
    eapply shr_rel_trans; [done|lia|lia|exact H1|exact H2].
  - pose proof (IH _ Ha) as H2.
    assert (0 <= shr_m (SpecFloat.iter_pos shr_1 p a)) as Ha2 by apply H2.
    pose proof (IH _ Ha2) as H3.
    replace (Z.pos p~0) with (Z.pos p + Z.pos p) by lia.
    eapply shr_rel_trans; [done|lia|lia|exact H2|exact H3].
  - apply shr_rel_1, Ha.
Qed.

End Shr.

(** Rounding a mantissa to the format. *)
Section Rounding.

Lemma shift_of_eq (M E : Z) :
  shift_of M E = Z.max (Zdigits2 M - 53) (- 1074 - E).
Proof. unfold shift_of, fexp, emin, prec, emax. lia. Qed.

Lemma shr_record_of_loc_m (M : Z) (l : location) :
  shr_m (shr_record_of_loc M l) = M.
Proof. destruct l as [|[]]; reflexivity. Qed.

Lemma shr_fexp_spec (M E : Z) (l : location) :
  0 <= M ->
  if 0 <? shift_of M E
  then shr_rel (shift_of M E) (shr_record_of_loc M l)
         (fst (shr_fexp prec emax M E l)) /\
       snd (shr_fexp prec emax M E l) = E + shift_of M E
  else fst (shr_fexp prec emax M E l) = shr_record_of_loc M l /\
       snd (shr_fexp prec emax M E l) = E.
Proof.
  intros HM. unfold shr_fexp. fold (shift_of M E).
  destruct (shift_of M E) as [|p|p]; cbn [shr fst snd Z.ltb Z.compare]; try done.
  split; [|done]. apply iter_pos_shr. by rewrite shr_record_of_loc_m.
Qed.


Lemma round_nearest_even_bounds (m : Z) (l : location) :
  m <= round_nearest_even m l <= m + 1.
Proof. destruct l as [|[]]; simpl; try lia. destruct (Z.even m); lia. Qed.

Lemma round_nearest_even_exact (mrs : shr_record) :
  inexact mrs = false ->
  round_nearest_even (shr_m mrs) (loc_of_shr_record mrs) = shr_m mrs.
Proof. destruct mrs as [m [] []]; simpl; done. Qed.

Lemma binary_round_aux_eq (s : bool) (M E : Z) (l : location) :
  binary_round_aux prec emax s M E l =
    match shr_m (fst (second_shift M E l)) with
    | 0 => S754_zero s
    | Z.pos m =>
        if snd (second_shift M E l) <=? 971
        then S754_finite s m (snd (second_shift M E l))
        else S754_infinity s
    | Z.neg _ => S754_nan
    end.
Proof.
  unfold binary_round_aux, second_shift, rounded.
  destruct (shr_fexp prec emax M E l) as [mrs' e']. cbn [fst snd].
  destruct (shr_fexp prec emax _ e' loc_Exact) as [mrs'' e'']. reflexivity.
Qed.

Lemma rounded_nonneg (M E : Z) (l : location) : 0 <= M -> 0 <= rounded M E l.
Proof.
  intros HM. unfold rounded.
  pose proof (shr_fexp_spec M E l HM) as H.
  pose proof (round_nearest_even_bounds
                (shr_m (fst (shr_fexp prec emax M E l)))
                (loc_of_shr_record (fst (shr_fexp prec emax M E l)))) as Hb.
  destruct (0 <? shift_of M E).
  - destruct H as [(Hge & _) _]. lia.
  - destruct H as [Hr _]. rewrite Hr, shr_record_of_loc_m in *. lia.
Qed.

Lemma binary_round_aux_bounded (s : bool) (M E : Z) (l : location) :
  0 <= M -> bounded53 (binary_round_aux prec emax s M E l).
Proof.
  intros HM. rewrite binary_round_aux_eq. unfold second_shift.
  pose proof (rounded_nonneg M E l HM) as H2.
  set (M2 := rounded M E l) in *.
  set (E1 := snd (shr_fexp prec emax M E l)).
  pose proof (shr_fexp_spec M2 E1 loc_Exact H2) as H.
  rewrite shift_of_eq in H.
  destruct (shr_fexp prec emax M2 E1 loc_Exact) as [mrs e]. cbn [fst snd] in *.
  destruct (shr_m mrs) as [|m|m] eqn:Hm; try exact I.
  destruct (e <=? 971); [|exact I]. cbn [bounded53].
  assert (0 < M2 -> M2 < 2 ^ Zdigits2 M2) as Hd by (intros; by apply Zdigits2_bounds).
  destruct (Z.ltb_spec 0 (Z.max (Zdigits2 M2 - 53) (-1074 - E1))) as [Hn|Hn].
  - destruct H as [(_ & Hq & _) _]. cbn [shr_record_of_loc shr_m] in Hq.
    rewrite Hm in Hq.
    set (n := Z.max (Zdigits2 M2 - 53) (-1074 - E1)) in *.
    assert (0 < 2 ^ n) by (apply Z.pow_pos_nonneg; lia).
    assert (0 < M2) as Hpos.
    { destruct (Z.eq_dec M2 0) as [E0|]; [|lia]. rewrite E0 in Hq. by rewrite Z.div_0_l in Hq by lia. }
    rewrite Hq. apply Z.div_lt_upper_bound; [done|].
    rewrite <- Z.pow_add_r by lia.
    eapply Z.lt_le_trans; [apply Hd, Hpos|].
    apply Z.pow_le_mono_r; lia.
  - destruct H as [-> _]. cbn [shr_record_of_loc shr_m] in Hm. rewrite <- Hm.
    eapply Z.lt_le_trans; [apply Hd; lia|]. apply Z.pow_le_mono_r; lia.
Qed.



End Rounding.

(** Products that do not exceed 100. *)
Section Hundred.

Lemma pow2_split (a b : Z) : 0 <= a -> 0 <= b -> 2 ^ (a + b) = 2 ^ a * 2 ^ b.
Proof. intros. by apply Z.pow_add_r. Qed.

Lemma digits_le_100 (M E : Z) :
  0 < M -> E <= 0 -> M <= 100 * 2 ^ (- E) -> Zdigits2 M <= 7 - E.
Proof.
  intros HM HE Hle. apply Zdigits2_le; [lia|lia|].
  replace (7 - E) with (7 + - E) by lia.
  rewrite pow2_split by lia. change (2 ^ 7) with 128.
  assert (0 < 2 ^ (- E)) by (apply Z.pow_pos_nonneg; lia). lia.
Qed.

Lemma rounded_le_100 (M E : Z) :
  0 < M -> E <= 0 -> M <= 100 * 2 ^ (- E) -> 0 <= shift_of M E ->
  snd (shr_fexp prec emax M E loc_Exact) <= - 46 /\
  - 1074 <= snd (shr_fexp prec emax M E loc_Exact) /\
  0 <= rounded M E loc_Exact
    <= 100 * 2 ^ (- snd (shr_fexp prec emax M E loc_Exact)).
Proof.
  intros HM HE Hle Hn. set (E1 := snd (shr_fexp prec emax M E loc_Exact)).
  pose proof (digits_le_100 M E HM HE Hle) as Hd.
  pose proof (rounded_nonneg M E loc_Exact ltac:(lia)) as Hnn.
  pose proof (shr_fexp_spec M E loc_Exact ltac:(lia)) as H.
  unfold rounded in *. fold E1 in H.
  pose proof (round_nearest_even_bounds
                (shr_m (fst (shr_fexp prec emax M E loc_Exact)))
                (loc_of_shr_record (fst (shr_fexp prec emax M E loc_Exact)))) as Hb.
  pose proof (round_nearest_even_exact (fst (shr_fexp prec emax M E loc_Exact))) as Hex.
  rewrite shift_of_eq in *.
  set (n := Z.max (Zdigits2 M - 53) (-1074 - E)) in *.
  destruct (Z.ltb_spec 0 n) as [Hpos|Hzero].
  - destruct H as [(_ & Hq & Hi) HE1]. cbn [shr_record_of_loc shr_m inexact shr_r shr_s orb] in Hq, Hi.
    assert (0 < 2 ^ n) by (apply Z.pow_pos_nonneg; lia).
    assert (0 < 2 ^ (- E1)) by (apply Z.pow_pos_nonneg; lia).
    assert (2 ^ (- E) = 2 ^ (- E1) * 2 ^ n) as Hsplit
      by (rewrite <- pow2_split by lia; f_equal; lia).
    repeat split; try lia.
    pose proof (Z.div_mod M (2 ^ n) ltac:(lia)) as Hdm.
    pose proof (Z.mod_pos_bound M (2 ^ n) ltac:(lia)) as Hmb.
    rewrite Hq in *.
    destruct (Z.eqb_spec (M mod 2 ^ n) 0) as [Hz|Hnz].
    + rewrite Hex by exact Hi. nia.
    + assert (M / 2 ^ n < 100 * 2 ^ (- E1)) by nia. lia.
  - destruct H as [Hr HE1]. assert (n = 0) as Hn0 by lia.
    rewrite Hr in *.
    cbn [shr_record_of_loc shr_m loc_of_shr_record round_nearest_even] in *.
    repeat split; try lia.
    replace (- E1) with (- E) by lia. lia.
Qed.

Lemma binary_round_aux_le_100 (M E : Z) :
  0 < M -> E <= 0 -> M <= 100 * 2 ^ (- E) -> 0 <= shift_of M E ->
  match binary_round_aux prec emax false M E loc_Exact with
  | S754_zero s => s = false
  | S754_finite s m e => s = false /\ e <= - 46 /\ Z.pos m <= 100 * 2 ^ (- e)
  | _ => False
  end.
Proof.
  intros HM HE Hle Hn.
  destruct (rounded_le_100 M E HM HE Hle Hn) as (HE1 & HE1' & H2lo & H2hi).
  rewrite binary_round_aux_eq. unfold second_shift.
  set (M2 := rounded M E loc_Exact) in *.
  set (E1 := snd (shr_fexp prec emax M E loc_Exact)) in *.
  pose proof (shr_fexp_spec M2 E1 loc_Exact H2lo) as H.
  rewrite shift_of_eq in H.
  assert (0 < M2 -> Zdigits2 M2 <= 7 - E1) as Hd
    by (intros; apply digits_le_100; lia).
  destruct (shr_fexp prec emax M2 E1 loc_Exact) as [mrs e]. cbn [fst snd] in *.
  set (n := Z.max (Zdigits2 M2 - 53) (-1074 - E1)) in *.
  destruct (Z.ltb_spec 0 n) as [Hpos|Hzero].
  - destruct H as [(Hge & Hq & _) He]. cbn [shr_record_of_loc shr_m] in Hq.
    destruct (shr_m mrs) as [|m|m] eqn:Hm; [done| |lia].
    assert (0 < M2) as HM2.
    { destruct (Z.eq_dec M2 0) as [E0|]; [|lia].
      rewrite E0, Z.div_0_l in Hq; [done|]. apply Z.pow_nonzero; lia. }
    specialize (Hd HM2).
    assert (e <= - 46) by lia.
    destruct (Z.leb_spec e 971) as [_|Hbad]; [|lia].
    repeat split; [done|].
    assert (0 < 2 ^ n) by (apply Z.pow_pos_nonneg; lia).
    assert (0 < 2 ^ (- e)) by (apply Z.pow_pos_nonneg; lia).
    assert (2 ^ (- E1) = 2 ^ (- e) * 2 ^ n) as Hsplit
      by (rewrite <- pow2_split by lia; f_equal; lia).
    pose proof (Z.mul_div_le M2 (2 ^ n) ltac:(lia)). nia.
  - destruct H as [-> ->]. cbn [shr_record_of_loc shr_m].
    destruct M2 as [|m|m] eqn:Hm; [done| |lia].
    destruct (Z.leb_spec E1 971) as [_|Hbad]; [|lia].
    done.
Qed.

End Hundred.

(** The attenuation of a cell lies between 0 and 1. *)
Section UnitInterval.

Lemma div_core_nonneg (m1 m2 : positive) (e1 e2 : Z) :
  0 <= fst (fst (SFdiv_core_binary prec emax (Z.pos m1) e1 (Z.pos m2) e2)).
Proof.
  unfold SFdiv_core_binary.
  set (s := _ - _ - _).
  set (m' := match s with Z.pos _ => Z.shiftl (Z.pos m1) s | 0 => Z.pos m1 | Z.neg _ => 0 end).
  assert (0 <= m') as Hm'.
  { subst m'. destruct s; try lia. apply Z.shiftl_nonneg. lia. }
  pose proof (Z.div_pos m' (Z.pos m2) Hm' ltac:(lia)) as Hq.
  unfold Z.div in Hq. destruct (Z.div_eucl m' (Z.pos m2)) as [q r]. exact Hq.
Qed.

Lemma binary_round_aux_sign (s : bool) (M E : Z) (l : location) :
  0 <= M ->
  match binary_round_aux prec emax s M E l with
  | S754_zero s' | S754_infinity s' | S754_finite s' _ _ => s' = s
  | S754_nan => False
  end.
Proof.
  intros HM. rewrite binary_round_aux_eq. unfold second_shift.
  pose proof (rounded_nonneg M E l HM) as H2.
  pose proof (shr_fexp_spec (rounded M E l)
                (snd (shr_fexp prec emax M E l)) loc_Exact H2) as H.
  destruct (shr_fexp prec emax (rounded M E l) _ loc_Exact) as [mrs e].
  cbn [fst snd] in *.
  assert (0 <= shr_m mrs) as Hm.
  { destruct (0 <? _).
    - by destruct H as [(? & _) _].
    - destruct H as [-> _]. by rewrite shr_record_of_loc_m. }
  destruct (shr_m mrs); [done| |lia]. by destruct (e <=? 971).
Qed.

Lemma div_sign_clear (x y : float) :
  sign_clear x -> sign_clear y -> is_nan (div x y) = false ->
  sign_clear (div x y).
Proof.
  destruct x as [sx|sx| |sx mx ex], y as [sy|sy| |sy my ey];
    try done; cbn [sign_clear]; intros -> ->; try done.
  intros _. unfold div, SFdiv.
  pose proof (div_core_nonneg mx my ex ey) as H.
  destruct (SFdiv_core_binary prec emax (Z.pos mx) ex (Z.pos my) ey) as [[mz ez] lz].
  cbn [fst] in H. cbn [xorb].
  pose proof (binary_round_aux_sign false mz ez lz H) as Hs.
  by destruct (binary_round_aux prec emax false mz ez lz).
Qed.

Lemma div_1000_sign_clear (p : float) :
  sign_clear p -> sign_clear (div p (of_Z 1000)).
Proof.
  intros Hp. apply div_sign_clear; [done|done|].
  change (of_Z 1000) with (S754_finite false 8796093022208000 (-43)).
  destruct p as [s|s| |s m e]; try done.
  cbn [sign_clear] in Hp. subst s. unfold div, SFdiv.
  pose proof (div_core_nonneg m 8796093022208000 e (-43)) as H.
  destruct (SFdiv_core_binary prec emax (Z.pos m) e _ (-43)) as [[mz ez] lz].
  cbn [fst] in H. cbn [xorb].
  pose proof (binary_round_aux_sign false mz ez lz H) as Hs.
  by destruct (binary_round_aux prec emax false mz ez lz).
Qed.

(** The allowed transmission of non-negative inputs is not negative. *)
Lemma transmission_nonneg (t p : float) :
  leb zero t = true -> leb zero p = true -> p <> neg_zero ->
  is_nan (div t (div p (of_Z 1000))) = false ->
  leb zero (div t (div p (of_Z 1000))) = true.
Proof.
  intros Ht Hp Hnz Hnan.
  assert (sign_clear p) as Hsp
    by (destruct p as [[]|[]| |[] m e]; done).
  pose proof (div_1000_sign_clear p Hsp) as Hd.
  destruct t as [st|[]| |[] mt et]; try done.
  - destruct (div p (of_Z 1000)) as [sd|sd| |sd md ed]; try done;
      cbn [sign_clear] in Hd; subst sd; by destruct st.
  - pose proof (div_sign_clear _ _ (eq_refl : sign_clear inf) Hd Hnan) as Hq.
    by destruct (div _ _) as [[]|[]| |[] ? ?].
  - pose proof (div_sign_clear (S754_finite false mt et) _ eq_refl Hd Hnan) as Hq.
    by destruct (div _ _) as [[]|[]| |[] ? ?].
Qed.

Lemma div_bounded (x y : float) : bounded53 (div x y).
Proof.
  destruct x as [sx|sx| |sx mx ex], y as [sy|sy| |sy my ey]; try exact I.
  unfold div, SFdiv.
  pose proof (div_core_nonneg mx my ex ey) as H.
  destruct (SFdiv_core_binary prec emax (Z.pos mx) ex (Z.pos my) ey) as [[mz ez] lz].
  by apply binary_round_aux_bounded.
Qed.

Lemma clip_unit (q : float) :
  bounded53 q -> leb zero q = true -> unit_interval (clip q).
Proof.
  intros Hb Hle. unfold clip.
  assert (unit_interval one) as Hone.
  { change one with (S754_finite false 4503599627370496 (-52)).
    cbn [unit_interval]. change (2 ^ (- -52)) with 4503599627370496. lia. }
  destruct q as [s|s| |s m e].
  - destruct s; exact I.
  - destruct s; [discriminate Hle|exact Hone].
  - discriminate Hle.
  - destruct s; [discriminate Hle|].
    destruct (ltb one (S754_finite false m e)) eqn:Hlt; [exact Hone|].
    cbn [bounded53] in Hb. cbn [unit_interval].
    change one with (S754_finite false 4503599627370496 (-52)) in Hlt.
    unfold ltb, SFltb in Hlt. cbn [SFcompare] in Hlt.
    destruct (Z.compare_spec (-52) e) as [He|He|He]; [| discriminate Hlt |].
    + fold (Pos.compare 4503599627370496 m) in Hlt.
      rewrite Pos2Z.inj_compare in Hlt. subst e.
      change (2 ^ (- -52)) with 4503599627370496.
      destruct (Z.compare_spec 4503599627370496 (Z.pos m)) as [Hm|Hm|Hm];
        [| discriminate Hlt |]; lia.
    + repeat split; [lia|].
      eapply Z.le_trans; [apply Z.lt_le_incl, Hb|]. apply Z.pow_le_mono_r; lia.
Qed.

Lemma mul_100_unit (c : float) :
  unit_interval c -> upto_100 (mul c (of_Z 100)).
Proof.
  destruct c as [s| | |s m e]; try done.
  intros (-> & He & Hm).
  change (of_Z 100) with (S754_finite false 7036874417766400 (-46)).
  unfold mul, SFmul. cbn [xorb]. rewrite Pos2Z.inj_mul.
  assert (0 < 2 ^ (- e)) by (apply Z.pow_pos_nonneg; lia).
  assert (match binary_round_aux prec emax false
                  (Z.pos m * 7036874417766400) (e + -46) loc_Exact with
          | S754_zero s => s = false
          | S754_finite s m e => s = false /\ e <= - 46 /\ Z.pos m <= 100 * 2 ^ (- e)
          | _ => False
          end) as Hr.
  { apply binary_round_aux_le_100; try lia.
    - replace (- (e + -46)) with (- e + 46) by lia.
      rewrite pow2_split by lia. change (2 ^ 46) with 70368744177664. lia.
    - rewrite shift_of_eq.
      assert (52 < Zdigits2 (Z.pos m * 7036874417766400))
        by (apply Zdigits2_gt; [lia|]; change (2 ^ 52) with 4503599627370496; lia).
      lia. }
  destruct (binary_round_aux prec emax false _ _ loc_Exact); cbn [upto_100];
    first [exact I | exact Hr].
Qed.

Lemma round_half_even_le_100 (m k : Z) :
  0 < m -> 1 <= k -> m <= 100 * 2 ^ k -> 0 <= round_half_even m k <= 100.
Proof.
  intros Hm Hk Hle. unfold round_half_even.
  rewrite Z.shiftr_div_pow2, Z.land_ones, Z.shiftl_mul_pow2 by lia.
  assert (0 < 2 ^ (k - 1)) by (apply Z.pow_pos_nonneg; lia).
  assert (2 ^ k = 2 * 2 ^ (k - 1)) as Hk2
    by (rewrite <- Z.pow_succ_r by lia; f_equal; lia).
  pose proof (Z.div_mod m (2 ^ k) ltac:(lia)) as Hdm.
  pose proof (Z.mod_pos_bound m (2 ^ k) ltac:(lia)) as Hmb.
  assert (0 <= m / 2 ^ k) by (apply Z.div_pos; lia).
  assert (m / 2 ^ k <= 100) by (apply Z.div_le_upper_bound; lia).
  destruct (Z.compare_spec (m mod 2 ^ k) (1 * 2 ^ (k - 1))) as [Hc|Hc|Hc].
  - destruct (Z.even _); nia.
  - lia.
  - nia.
Qed.

Lemma rint_upto_100 (y : float) :
  upto_100 y -> exists s N, 0 <= N <= 100 /\ rint y = small_integer s N.
Proof.
  destruct y as [s| | |s m e]; try done.
  - intros _. exists s, 0. split; [lia|reflexivity].
  - intros (-> & He & Hm). unfold rint.
    destruct (Z.leb_spec 0 e); [lia|].
    pose proof (round_half_even_le_100 (Z.pos m) (- e) ltac:(lia) ltac:(lia) Hm) as HN.
    exists false, (round_half_even (Z.pos m) (- e)). split; [done|].
    destruct (round_half_even (Z.pos m) (- e)); reflexivity.
Qed.

Lemma attenuation_ok_all :
  forallb (fun N => attenuation_ok true N && attenuation_ok false N)
    (Z.of_nat <$> seq 0 101) = true.
Proof. vm_compute. reflexivity. Qed.

Lemma attenuation_ok_small (s : bool) (N : Z) :
  0 <= N <= 100 -> attenuation_ok s N = true.
Proof.
  intros HN. pose proof attenuation_ok_all as H.
  rewrite forallb_forall in H.
  specialize (H N). rewrite andb_true_iff in H.
  destruct H as [Ht Hf].
  - apply in_map_iff. exists (Z.to_nat N). split; [lia|].
    apply in_seq. lia.
  - by destruct s.
Qed.

Theorem attenuation_range (q : float) :
  bounded53 q -> leb zero q = true ->
  let a := sub one (around 2 (clip q)) in
  leb zero a = true /\ leb a one = true.
Proof.
  intros Hb Hq a. subst a. unfold around.
  change (of_Z (10 ^ Z.of_nat 2)) with (of_Z 100).
  destruct (rint_upto_100 _ (mul_100_unit _ (clip_unit q Hb Hq))) as (s & N & HN & ->).
  pose proof (attenuation_ok_small s N HN) as H.
  unfold attenuation_ok in H. by apply andb_true_iff in H.
Qed.

End UnitInterval.

(** [rint] returns integers. *)
Section Integral.





End Integral.

(** * The tables *)

Section Frames.

Lemma positions_from_notin (i : nat) (name : string) (idx : list string) :
  name ∉ idx -> pd.positions_from i name idx = [].
Proof.
  revert i. induction idx as [|l idx IH]; intros i Hn; [done|].
  simpl. apply not_elem_of_cons in Hn as [Hne Hn].
  rewrite decide_False by done. by apply IH.
Qed.

Lemma loc_single (reqs : pd.DataFrame) (name : string) (rest : list string) :
  pd.index reqs = name :: rest -> name ∉ rest ->
  pd.loc reqs name
  = Ok (pd.Row (omap (fun col : list float => col !! 0%nat) (pd.data reqs))).
Proof.
  intros Hidx Hn. unfold pd.loc, pd.positions. rewrite Hidx. simpl.
  rewrite decide_True by done. by rewrite positions_from_notin.
Qed.

Lemma row_lookup (reqs : pd.DataFrame) (c : string) :
  omap (fun col : list float => col !! 0%nat) (pd.data reqs) !! c
  = pd.cell reqs 0 c.
Proof. by rewrite lookup_omap. Qed.

Lemma full_lookup (x : float) (idx cols : list string) (c : string) :
  pd.data (pd.full x idx cols) !! c
  = if decide (c ∈ cols) then Some (replicate (length idx) x) else None.
Proof.
  unfold pd.full. cbn [pd.data]. induction cols as [|c' cols IH].
  - rewrite decide_False by apply not_elem_of_nil. apply lookup_empty.
  - rewrite fmap_cons. cbn [list_to_map foldr uncurry].
    destruct (decide (c' = c)) as [->|Hne].
    + rewrite lookup_insert_eq. rewrite decide_True by apply list_elem_of_here. done.
    + rewrite lookup_insert_ne by done. rewrite IH.
      destruct (decide (c ∈ cols)) as [Hin|Hnin].
      * rewrite decide_True; [done|]. by apply list_elem_of_further.
      * rewrite decide_False; [done|]. intros [?|?]%elem_of_cons; congruence.
Qed.

Lemma map_frame_lookup (f : float -> float) (df : pd.DataFrame) (c : string) :
  pd.data (pd.map_frame f df) !! c = fmap f <$> pd.data df !! c.
Proof. unfold pd.map_frame. cbn [pd.data]. by rewrite lookup_fmap. Qed.

Lemma assign_lookup (df : pd.DataFrame) (c c' : string) (col : list float) :
  pd.data (pd.assign df c col) !! c'
  = if decide (c = c') then Some col else pd.data df !! c'.
Proof. unfold pd.assign. cbn [pd.data]. apply lookup_insert. Qed.

Lemma assign_columns (df : pd.DataFrame) (c : string) (col : list float) :
  c ∈ pd.columns df -> pd.columns (pd.assign df c col) = pd.columns df.
Proof. intros Hin. unfold pd.assign. cbn [pd.columns]. by rewrite decide_True. Qed.

(** Storing a column that carries the row labels of the frame. *)
Lemma setitem_same_index (df : pd.DataFrame) (c : string) (vals : list float) :
  pd.setitem df c (pd.Column {| pd.s_index := pd.index df; pd.s_values := vals |})
  = Ok (pd.assign df c vals).
Proof.
  unfold pd.setitem, pd.ensure_valid_index. cbn [pd.s_index pd.s_values].
  destruct (pd.index df) eqn:Hidx.
  - by rewrite decide_True by done.
  - by rewrite decide_True by done.
Qed.

End Frames.

Section Loops.

Context (reqs beam : pd.DataFrame) (name : string) (rest : list string).
Hypothesis Hindex : pd.index reqs = name :: rest.
Hypothesis Hfresh : name ∉ rest.

Lemma set_min_attenuation_id (k : Kernel) (mn : pd.DataFrame) :
  min_attenuation k = Some mn -> set_min_attenuation mn k = k.
Proof. destruct k. simpl. by intros ->. Qed.

Lemma set_max_pulse_rate_id (k : Kernel) (mx : pd.DataFrame) :
  max_pulse_rate k = Some mx -> set_max_pulse_rate mx k = k.
Proof. destruct k. simpl. by intros ->. Qed.

Lemma attenuation_body_eq (c : string) (k : Kernel) (mn : pd.DataFrame) :
  loaded reqs beam name k -> min_attenuation k = Some mn ->
  pd.index mn = pd.index beam ->
  attenuation_body c k =
    match pd.cell reqs 0 c with
    | None => Raise (KeyError c)
    | Some t =>
        match pd.data beam !! c with
        | None => Raise (KeyError c)
        | Some col =>
            Ok (set_min_attenuation
                  (pd.assign mn c
                     (div t <$> ((fun x => div x (of_Z 1000)) <$> col))) k)
        end
    end.
Proof.
  intros (H1 & H2 & H3) H4 Hidx. unfold attenuation_body.
  rewrite H1, H2, H3, H4. simpl.
  rewrite (loc_single reqs name rest Hindex Hfresh). simpl.
  rewrite row_lookup. destruct (pd.cell reqs 0 c) as [t|]; [|done]. simpl.
  unfold pd.getitem. destruct (pd.data beam !! c) as [col|]; [|done]. simpl.
  rewrite <- Hidx, setitem_same_index. done.
Qed.

Lemma for_each_app {A S : Type} (xs ys : list A) (body : A -> S -> result S) (s : S) :
  for_each (xs ++ ys) body s = s' ← for_each xs body s; for_each ys body s'.
Proof.
  revert s. induction xs as [|x xs IH]; intros s; [done|].
  simpl. destruct (body x s); simpl; [apply IH|done].
Qed.

Lemma attenuation_loop (cols : list string) (k : Kernel) (mn : pd.DataFrame) :
  loaded reqs beam name k -> min_attenuation k = Some mn ->
  pd.index mn = pd.index beam ->
  (forall c, c ∈ cols -> c ∈ pd.columns mn) ->
  (forall c, c ∈ cols -> is_Some (transmission_column reqs beam c)) ->
  exists mn',
    for_each cols attenuation_body k = Ok (set_min_attenuation mn' k) /\
    pd.index mn' = pd.index beam /\
    pd.columns mn' = pd.columns mn /\
    forall c, pd.data mn' !! c
              = if decide (c ∈ cols) then transmission_column reqs beam c
                else pd.data mn !! c.
Proof.
  revert k mn. induction cols as [|c cols IH]; intros k mn Hk Hmn Hidx Hcols Hsome.
  - exists mn. simpl. rewrite set_min_attenuation_id by done.
    repeat split; done.
  - simpl. rewrite (attenuation_body_eq c k mn Hk Hmn Hidx).
    destruct (Hsome c) as [tc Htc]; [apply list_elem_of_here|].
    unfold transmission_column in Htc.
    destruct (pd.cell reqs 0 c) as [t|] eqn:Ht; [|done].
    destruct (pd.data beam !! c) as [col|] eqn:Hcol; [|done].
    simpl.
    set (mn1 := pd.assign mn c _).
    destruct (IH (set_min_attenuation mn1 k) mn1) as (mn' & Hrun & Hi & Hc & Hd).
    + destruct Hk as (? & ? & ?). by repeat split.
    + done.
    + done.
    + intros c' Hc'. subst mn1. rewrite assign_columns.
      * apply Hcols. by apply list_elem_of_further.
      * apply Hcols, list_elem_of_here.
    + intros c' Hc'. apply Hsome. by apply list_elem_of_further.
    + exists mn'. split; [exact Hrun|]. split; [done|]. split.
      * rewrite Hc. subst mn1. apply assign_columns, Hcols, list_elem_of_here.
      * intros c'. rewrite Hd. subst mn1. rewrite assign_lookup.
        destruct (decide (c' ∈ cols)) as [Hin|Hnin].
        -- rewrite decide_True; [done|]. by apply list_elem_of_further.
        -- destruct (decide (c = c')) as [<-|Hne].
           ++ rewrite decide_True by apply list_elem_of_here.
              unfold transmission_column. by rewrite Ht, Hcol.
           ++ rewrite decide_False; [done|].
              intros [?|?]%elem_of_cons; congruence.
Qed.

End Loops.

Section Success.

Context (reqs beam : pd.DataFrame) (name : string) (rest : list string).
Hypothesis Hindex : pd.index reqs = name :: rest.
Hypothesis Hfresh : name ∉ rest.

Lemma attenuation_loop_missing (pre post : list string) (c0 : string)
    (k : Kernel) (mn : pd.DataFrame) :
  loaded reqs beam name k -> min_attenuation k = Some mn ->
  pd.index mn = pd.index beam ->
  (forall c, c ∈ pre -> c ∈ pd.columns mn) ->
  (forall c, c ∈ pre -> is_Some (transmission_column reqs beam c)) ->
  pd.cell reqs 0 c0 = None ->
  for_each (pre ++ c0 :: post) attenuation_body k = Raise (KeyError c0).
Proof.
  intros Hk Hmn Hidx Hcols Hsome Hnone. rewrite for_each_app.
  destruct (attenuation_loop reqs beam name rest Hindex Hfresh pre k mn)
    as (mn' & -> & Hi & _); try done.
  simpl.
  rewrite (attenuation_body_eq reqs beam name rest Hindex Hfresh c0 _ mn');
    [by rewrite Hnone| |done|done].
  destruct Hk as (? & ? & ?). by repeat split.
Qed.

Lemma attenuation_column_eq (c : string) :
  (fun col : list float =>
     sub one <$> (around 2 <$> ((fun v => if ltb one v then one else v) <$> col)))
    <$> transmission_column reqs beam c
  = attenuation_column reqs beam c.
Proof.
  unfold transmission_column, attenuation_column.
  destruct (pd.cell reqs 0 c) as [t|]; [|done].
  destruct (pd.data beam !! c) as [col|]; [|done].
  simpl. f_equal. rewrite <- !list_fmap_compose. done.
Qed.

(** The attenuation cell on the freshly created tables. *)
Lemma required_attenuation_ok (k : Kernel) :
  loaded reqs beam name k ->
  min_attenuation k = Some (pd.full zero (pd.index beam) (pd.columns beam)) ->
  (forall c, c ∈ pd.columns beam -> is_Some (transmission_column reqs beam c)) ->
  exists mn,
    required_attenuation k = Ok (set_min_attenuation mn k) /\
    pd.index mn = pd.index beam /\
    pd.columns mn = pd.columns beam /\
    forall c, pd.data mn !! c
              = if decide (c ∈ pd.columns beam) then attenuation_column reqs beam c
                else None.
Proof.
  intros Hk Hmn Hsome.
  destruct (attenuation_loop reqs beam name rest Hindex Hfresh
              (pd.columns beam) k _ Hk Hmn) as (mn' & Hrun & Hi & Hc & Hd);
    try done.
  unfold required_attenuation.
  destruct Hk as (H1 & H2 & H3). rewrite H2. simpl. rewrite Hrun. simpl.
  eexists. split; [reflexivity|]. split; [done|]. split; [done|].
  intros c. unfold pd.rsub, pd.round, pd.clip_above.
  rewrite !map_frame_lookup, Hd, full_lookup.
  destruct (decide (c ∈ pd.columns beam)); [|done].
  rewrite <- attenuation_column_eq.
  by destruct (transmission_column reqs beam c).
Qed.

End Success.

Section Rate.

Context (reqs beam : pd.DataFrame) (name : string) (rest : list string).
Hypothesis Hindex : pd.index reqs = name :: rest.
Hypothesis Hfresh : name ∉ rest.

Lemma rate_body_eq (c : string) (k : Kernel) (att mx : pd.DataFrame) :
  loaded reqs beam name k ->
  min_attenuation k = Some att -> pd.index att = pd.index beam ->
  max_pulse_rate k = Some mx -> pd.index mx = pd.index beam ->
  rate_body c k =
    match pd.cell reqs 0 "Power" with
    | None => Raise (KeyError "Power")
    | Some _ =>
        match pd.data beam !! c with
        | None => Raise (KeyError c)
        | Some _ =>
            match rate_sum_column reqs beam att c with
            | None => Raise (KeyError c)
            | Some col => Ok (set_max_pulse_rate (pd.assign mx c col) k)
            end
        end
    end.
Proof.
  intros (H1 & H2 & H3) H4 Hia H5 Him. unfold rate_body, rate_sum_column.
  rewrite H1, H2, H3, H4, H5. simpl.
  rewrite (loc_single reqs name rest Hindex Hfresh). simpl.
  rewrite row_lookup. destruct (pd.cell reqs 0 "Power") as [P|]; [|done]. simpl.
  unfold pd.getitem. destruct (pd.data beam !! c) as [col|]; [|done]. simpl.
  destruct (pd.data att !! c) as [acol|]; [|done]. simpl.
  rewrite Hia. rewrite decide_True by done.
  rewrite <- Him, setitem_same_index. done.
Qed.

Lemma rate_loop (cols : list string) (k : Kernel) (att mx : pd.DataFrame) :
  loaded reqs beam name k ->
  min_attenuation k = Some att -> pd.index att = pd.index beam ->
  max_pulse_rate k = Some mx -> pd.index mx = pd.index beam ->
  (forall c, c ∈ cols -> c ∈ pd.columns mx) ->
  (forall c, c ∈ cols -> is_Some (rate_sum_column reqs beam att c)) ->
  exists mx',
    for_each cols rate_body k = Ok (set_max_pulse_rate mx' k) /\
    pd.index mx' = pd.index beam /\
    pd.columns mx' = pd.columns mx /\
    forall c, pd.data mx' !! c
              = if decide (c ∈ cols) then rate_sum_column reqs beam att c
                else pd.data mx !! c.
Proof.
  revert k mx. induction cols as [|c cols IH];
    intros k mx Hk Hatt Hia Hmx Him Hcols Hsome.
  - exists mx. simpl. rewrite set_max_pulse_rate_id by done.
    repeat split; done.
  - simpl. rewrite (rate_body_eq c k att mx Hk Hatt Hia Hmx Him).
    destruct (Hsome c) as [rc Hrc]; [apply list_elem_of_here|].
    assert (is_Some (pd.cell reqs 0 "Power") /\ is_Some (pd.data beam !! c))
      as [[P HP] [col Hcol]].
    { unfold rate_sum_column in Hrc.
      destruct (pd.cell reqs 0 "Power"); [|done].
      destruct (pd.data beam !! c); [|done]. by split. }
    rewrite HP, Hcol, Hrc. simpl.
    set (mx1 := pd.assign mx c rc).
    destruct (IH (set_max_pulse_rate mx1 k) mx1) as (mx' & Hrun & Hi & Hc & Hd).
    + destruct Hk as (? & ? & ?). by repeat split.
    + done.
    + done.
    + done.
    + done.
    + intros c' Hc'. subst mx1. rewrite assign_columns.
      * apply Hcols. by apply list_elem_of_further.
      * apply Hcols, list_elem_of_here.
    + intros c' Hc'. apply Hsome. by apply list_elem_of_further.
    + exists mx'. split; [exact Hrun|]. split; [done|]. split.
      * rewrite Hc. subst mx1. apply assign_columns, Hcols, list_elem_of_here.
      * intros c'. rewrite Hd. subst mx1. rewrite assign_lookup.
        destruct (decide (c' ∈ cols)) as [Hin|Hnin].
        -- rewrite decide_True; [done|]. by apply list_elem_of_further.
        -- destruct (decide (c = c')) as [<-|Hne].
           ++ by rewrite decide_True by apply list_elem_of_here.
           ++ rewrite decide_False; [done|].
              intros [?|?]%elem_of_cons; congruence.
Qed.

Lemma rate_loop_power_missing (c : string) (cols : list string) (k : Kernel)
    (att mx : pd.DataFrame) :
  loaded reqs beam name k ->
  min_attenuation k = Some att -> pd.index att = pd.index beam ->
  max_pulse_rate k = Some mx -> pd.index mx = pd.index beam ->
  pd.cell reqs 0 "Power" = None ->
  for_each (c :: cols) rate_body k = Raise (KeyError "Power").
Proof.
  intros Hk Hatt Hia Hmx Him Hnone. simpl.
  rewrite (rate_body_eq c k att mx Hk Hatt Hia Hmx Him), Hnone. done.
Qed.

Lemma maximum_repetition_rate_ok (k : Kernel) (att : pd.DataFrame) :
  loaded reqs beam name k ->
  min_attenuation k = Some att -> pd.index att = pd.index beam ->
  max_pulse_rate k = Some (pd.full zero (pd.index beam) (pd.columns beam)) ->
  (forall c, c ∈ pd.columns beam -> is_Some (rate_sum_column reqs beam att c)) ->
  exists mx,
    maximum_repetition_rate k = Ok (set_max_pulse_rate mx k) /\
    pd.index mx = pd.index beam /\
    pd.columns mx = pd.columns beam /\
    forall c, pd.data mx !! c
              = if decide (c ∈ pd.columns beam)
                then rate_column reqs beam att c
                else None.
Proof.
  intros Hk Hatt Hia Hmx Hsome.
  destruct (rate_loop (pd.columns beam) k att _ Hk Hatt Hia Hmx)
    as (mx' & Hrun & Hi & Hc & Hd); try done.
  unfold maximum_repetition_rate.
  destruct Hk as (H1 & H2 & H3). rewrite H2. simpl. rewrite Hrun. simpl.
  eexists. split; [reflexivity|]. split; [done|]. split; [done|].
  intros c. unfold pd.round, rate_column.
  rewrite map_frame_lookup, Hd, full_lookup.
  by destruct (decide (c ∈ pd.columns beam)).
Qed.

End Rate.

Section Run.

Context (reqs beam : pd.DataFrame) (name : string) (rest : list string).
Hypothesis Hindex : pd.index reqs = name :: rest.
Hypothesis Hfresh : name ∉ rest.
Hypothesis Hwf : pd.wf beam.

Lemma first_failing {A : Type} (P : A -> Prop) `{!forall x, Decision (P x)}
    (l : list A) :
  Forall P l \/
  exists pre x post, l = pre ++ x :: post /\ Forall P pre /\ ~ P x.
Proof.
  induction l as [|x l IH]; [by left|].
  destruct (decide (P x)) as [Hx|Hx].
  - destruct IH as [Hall|(pre & y & post & -> & Hpre & Hy)].
    + left. by constructor.
    + right. exists (x :: pre), y, post. repeat split; [|done]. by constructor.
  - right. exists [], x, l. by repeat split.
Qed.

Lemma run_all_prepared (k0 : Kernel) :
  run_all reqs beam k0 =
    k ← required_attenuation (prepared reqs beam name k0);
    k ← maximum_repetition_rate k;
    store k.
Proof. unfold run_all, load. rewrite Hindex. reflexivity. Qed.

Lemma prepared_loaded (k0 : Kernel) :
  loaded reqs beam name (prepared reqs beam name k0).
Proof. by repeat split. Qed.

Lemma transmission_some (c : string) :
  c ∈ pd.columns beam -> is_Some (pd.cell reqs 0 c) ->
  is_Some (transmission_column reqs beam c).
Proof.
  intros Hc [t Ht]. destruct Hwf as (_ & Hdom & _).
  apply Hdom in Hc as [col Hcol].
  unfold transmission_column. rewrite Ht, Hcol. by eexists.
Qed.

Lemma required_attenuation_missing (pre post : list string) (c0 : string)
    (k0 : Kernel) :
  pd.columns beam = pre ++ c0 :: post ->
  Forall (fun c => is_Some (pd.cell reqs 0 c)) pre ->
  pd.cell reqs 0 c0 = None ->
  required_attenuation (prepared reqs beam name k0) = Raise (KeyError c0).
Proof.
  intros Hcols Hpre Hnone. unfold required_attenuation. simpl. rewrite Hcols.
  rewrite (attenuation_loop_missing reqs beam name rest Hindex Hfresh
             pre post c0 _ (pd.full zero (pd.index beam) (pd.columns beam)));
    try done.
  - intros c Hc. simpl. rewrite Hcols. apply elem_of_app. by left.
  - intros c Hc. apply transmission_some.
    + rewrite Hcols. apply elem_of_app. by left.
    + by eapply Forall_forall in Hpre.
Qed.

Theorem run_all_cases (k0 : Kernel) :
  (exists c0, c0 ∈ pd.columns beam /\ pd.cell reqs 0 c0 = None /\
              run_all reqs beam k0 = Raise (KeyError c0)) \/
  (Forall (fun c => is_Some (pd.cell reqs 0 c)) (pd.columns beam) /\
   pd.columns beam <> [] /\ pd.cell reqs 0 "Power" = None /\
   run_all reqs beam k0 = Raise (KeyError "Power")) \/
  (Forall (fun c => is_Some (pd.cell reqs 0 c)) (pd.columns beam) /\
   (pd.columns beam = [] \/ is_Some (pd.cell reqs 0 "Power")) /\
   exists k, run_all reqs beam k0 = Ok k /\ finished reqs beam k0 k).
Proof.
  rewrite run_all_prepared.
  destruct (first_failing (fun c => is_Some (pd.cell reqs 0 c)) (pd.columns beam))
    as [Hall|(pre & c0 & post & Hcols & Hpre & Hc0)].
  2:{ left. exists c0. split; [rewrite Hcols; apply elem_of_app; right; apply list_elem_of_here|].
      assert (pd.cell reqs 0 c0 = None) as Hnone
        by (destruct (pd.cell reqs 0 c0); [by destruct Hc0|done]).
      split; [done|].
      by rewrite (required_attenuation_missing pre post c0 k0 Hcols Hpre Hnone). }
  right.
  destruct (required_attenuation_ok reqs beam name rest Hindex Hfresh
              (prepared reqs beam name k0) (prepared_loaded k0) eq_refl)
    as (mn & -> & Himn & Hcmn & Hdmn).
  { intros c Hc. apply transmission_some; [done|]. by eapply Forall_forall in Hall. }
  assert (forall c, c ∈ pd.columns beam -> is_Some (attenuation_column reqs beam c))
    as Hatt.
  { intros c Hc. destruct Hwf as (_ & Hdom & _).
    apply Hdom in Hc as Hc'. destruct Hc' as [col Hcol].
    eapply Forall_forall in Hall as [t Ht]; [|exact Hc].
    unfold attenuation_column. rewrite Ht, Hcol. by eexists. }
  simpl.
  set (k1 := set_min_attenuation mn (prepared reqs beam name k0)).
  destruct (pd.cell reqs 0 "Power") as [P|] eqn:HP.
  - right. split; [done|]. split; [right; by eexists|].
    assert (forall c, c ∈ pd.columns beam ->
                      is_Some (rate_sum_column reqs beam mn c)) as Hsum.
    { intros c Hc. destruct Hwf as (_ & Hdom & _).
      apply Hdom in Hc as Hc'. destruct Hc' as [col Hcol].
      destruct (Hatt c Hc) as [acol Hacol].
      unfold rate_sum_column. rewrite HP, Hcol, Hdmn.
      rewrite decide_True by done. rewrite Hacol. by eexists. }
    destruct (maximum_repetition_rate_ok reqs beam name rest Hindex Hfresh
                k1 mn) as (mx & -> & Himx & Hcmx & Hdmx); try done.
    simpl. eexists. split; [reflexivity|].
    exists mn, mx. simpl. repeat split; try done.
    + by apply Hatt.
    + unfold rate_column. destruct (Hsum c) as [? ->]; [done|]. by eexists.
    + exists name. by rewrite Hindex.
  - destruct (pd.columns beam) as [|c cols] eqn:Hcols.
    + right. split; [done|]. split; [by left|].
      unfold maximum_repetition_rate. simpl. rewrite Hcols. simpl.
      eexists. split; [reflexivity|].
      exists mn, (pd.round 0 (pd.full zero (pd.index beam) [])). simpl.
      rewrite Hcols. repeat split; try done.
      all: try (exfalso; eapply not_elem_of_nil; eassumption).
      exists name. by rewrite Hindex.
    + left. split; [done|]. split; [done|]. split; [done|].
      unfold maximum_repetition_rate. simpl. rewrite Hcols.
      rewrite (rate_loop_power_missing reqs beam name rest Hindex Hfresh
                 c cols k1 mn (pd.full zero (pd.index beam) (c :: cols)));
        try done.
      subst k1. simpl. by rewrite Hcols.
Qed.

End Run.

(** Runs that read the same requirement row compute the same tables. *)
Section Agreement.

Lemma attenuation_body_selected (c : string) (k : Kernel) :
  attenuation_body c k =
    row ← selected k;
    allowed ← pd.item row c;
    beam ← var "max_pulse" (max_pulse k);
    predicted ← pd.getitem beam c;
    table ← var "min_attenuation" (min_attenuation k);
    table' ← pd.setitem table c
               (pd.truediv allowed
                  (pd.truediv (pd.Column predicted) (pd.Scalar (of_Z 1000))));
    Ok (set_min_attenuation table' k).
Proof.
  unfold attenuation_body, selected.
  destruct (max_reqs k); [|done]. destruct (state_name k); [|done]. simpl.
  by destruct (pd.loc _ _).
Qed.

Lemma rate_body_selected (c : string) (k : Kernel) :
  rate_body c k =
    row ← selected k;
    power ← pd.item row "Power";
    beam ← var "max_pulse" (max_pulse k);
    predicted ← pd.getitem beam c;
    attenuation ← var "min_attenuation" (min_attenuation k);
    att ← pd.getitem attenuation c;
    table ← var "max_pulse_rate" (max_pulse_rate k);
    table' ← pd.setitem table c
               (pd.subtract
                  (pd.truediv
                     (pd.truediv power
                        (pd.truediv (pd.Column predicted)
                           (pd.Scalar (of_Z 1000000))))
                     (pd.Scalar (of_Z 1)))
                  (pd.Column att));
    Ok (set_max_pulse_rate table' k).
Proof.
  unfold rate_body, selected.
  destruct (max_reqs k); [|done]. destruct (state_name k); [|done]. simpl.
  by destruct (pd.loc _ _).
Qed.

Lemma agree_set_min_attenuation (k1 k2 : Kernel) (t : pd.DataFrame) :
  agree k1 k2 -> agree (set_min_attenuation t k1) (set_min_attenuation t k2).
Proof. intros (? & ? & ? & ? & ?). by repeat split. Qed.

Lemma agree_set_max_pulse_rate (k1 k2 : Kernel) (t : pd.DataFrame) :
  agree k1 k2 -> agree (set_max_pulse_rate t k1) (set_max_pulse_rate t k2).
Proof. intros (? & ? & ? & ? & ?). by repeat split. Qed.

Lemma attenuation_body_agree (c : string) (k1 k2 : Kernel) :
  agree k1 k2 ->
  agree_result (attenuation_body c k1) (attenuation_body c k2).
Proof.
  intros Hk. pose proof Hk as (H1 & H2 & H3 & H4 & H5).
  rewrite !attenuation_body_selected, H1, H2, H4.
  destruct (selected k2) as [row|]; [|done]. simpl.
  destruct (pd.item row c) as [allowed|]; [|done]. simpl.
  destruct (max_pulse k2) as [beam|]; [|done]. simpl.
  destruct (pd.getitem beam c) as [predicted|]; [|done]. simpl.
  destruct (min_attenuation k2) as [table|]; [|done]. simpl.
  destruct (pd.setitem table c _) as [table'|]; [|done]. simpl.
  by apply agree_set_min_attenuation.
Qed.

Lemma rate_body_agree (c : string) (k1 k2 : Kernel) :
  agree k1 k2 -> agree_result (rate_body c k1) (rate_body c k2).
Proof.
  intros Hk. pose proof Hk as (H1 & H2 & H3 & H4 & H5).
  rewrite !rate_body_selected, H1, H2, H4, H5.
  destruct (selected k2) as [row|]; [|done]. simpl.
  destruct (pd.item row "Power") as [power|]; [|done]. simpl.
  destruct (max_pulse k2) as [beam|]; [|done]. simpl.
  destruct (pd.getitem beam c) as [predicted|]; [|done]. simpl.
  destruct (min_attenuation k2) as [attenuation|]; [|done]. simpl.
  destruct (pd.getitem attenuation c) as [att|]; [|done]. simpl.
  destruct (max_pulse_rate k2) as [table|]; [|done]. simpl.
  destruct (pd.setitem table c _) as [table'|]; [|done]. simpl.
  by apply agree_set_max_pulse_rate.
Qed.

Lemma for_each_agree (body : string -> Kernel -> result Kernel)
    (cols : list string) (k1 k2 : Kernel) :
  (forall c k1 k2, agree k1 k2 -> agree_result (body c k1) (body c k2)) ->
  agree k1 k2 ->
  agree_result (for_each cols body k1) (for_each cols body k2).
Proof.
  intros Hbody. revert k1 k2.
  induction cols as [|c cols IH]; intros k1 k2 Hk; [done|].
  simpl. pose proof (Hbody c k1 k2 Hk) as Hc.
  destruct (body c k1) as [k1'|e1], (body c k2) as [k2'|e2]; try done.
  simpl. by apply IH.
Qed.

Lemma required_attenuation_agree (k1 k2 : Kernel) :
  agree k1 k2 ->
  agree_result (required_attenuation k1) (required_attenuation k2).
Proof.
  intros Hk. pose proof Hk as (H1 & H2 & H3 & H4 & H5).
  unfold required_attenuation. rewrite H2.
  destruct (max_pulse k2) as [beam|]; [|done]. simpl.
  pose proof (for_each_agree attenuation_body (pd.columns beam) k1 k2
                attenuation_body_agree Hk) as Hloop.
  destruct (for_each _ _ k1) as [k1'|e1], (for_each _ _ k2) as [k2'|e2];
    try done.
  simpl. simpl in Hloop. pose proof Hloop as (_ & _ & _ & -> & _).
  destruct (min_attenuation k2') as [table|]; [|done]. simpl.
  by repeat apply agree_set_min_attenuation.
Qed.

Lemma maximum_repetition_rate_agree (k1 k2 : Kernel) :
  agree k1 k2 ->
  agree_result (maximum_repetition_rate k1) (maximum_repetition_rate k2).
Proof.
  intros Hk. pose proof Hk as (H1 & H2 & H3 & H4 & H5).
  unfold maximum_repetition_rate. rewrite H2.
  destruct (max_pulse k2) as [beam|]; [|done]. simpl.
  pose proof (for_each_agree rate_body (pd.columns beam) k1 k2
                rate_body_agree Hk) as Hloop.
  destruct (for_each _ _ k1) as [k1'|e1], (for_each _ _ k2) as [k2'|e2];
    try done.
  simpl. simpl in Hloop. pose proof Hloop as (_ & _ & _ & _ & ->).
  destruct (max_pulse_rate k2') as [table|]; [|done]. simpl.
  by apply agree_set_max_pulse_rate.
Qed.

Lemma store_agree (k1 k2 : Kernel) :
  agree k1 k2 -> outcome (store k1) = outcome (store k2).
Proof.
  intros (H1 & H2 & H3 & H4 & H5). unfold store. rewrite H3, H4, H5.
  destruct (state_name k2); [|done]. simpl.
  destruct (min_attenuation k2) eqn:Hmn; [|done]. simpl.
  destruct (max_pulse_rate k2) eqn:Hmx; [|done]. simpl.
  done.
Qed.

Lemma start_agree (reqs1 reqs2 beam : pd.DataFrame) (k1 k2 : Kernel) :
  head (pd.index reqs1) = head (pd.index reqs2) ->
  (forall name, head (pd.index reqs1) = Some name ->
                pd.loc reqs1 name = pd.loc reqs2 name) ->
  agree_result (k ← load reqs1 beam k1; create_tables k)
               (k ← load reqs2 beam k2; create_tables k).
Proof.
  intros Hhead Hloc. unfold load.
  destruct (pd.index reqs1) as [|n1 rest1], (pd.index reqs2) as [|n2 rest2];
    try done.
  simpl in Hhead. injection Hhead as <-.
  simpl. repeat split. unfold selected. simpl. by apply Hloc.
Qed.

Lemma bind_outcome (r1 r2 : result Kernel) (f : Kernel -> result Kernel) :
  agree_result r1 r2 ->
  (forall k1 k2, agree k1 k2 -> outcome (f k1) = outcome (f k2)) ->
  outcome (k ← r1; f k) = outcome (k ← r2; f k).
Proof.
  intros Hr Hf. destruct r1 as [k1|e1], r2 as [k2|e2]; try done.
  - by apply Hf.
  - simpl in *. by subst.
Qed.

Theorem run_all_agree (reqs1 reqs2 beam : pd.DataFrame) (k1 k2 : Kernel) :
  head (pd.index reqs1) = head (pd.index reqs2) ->
  (forall name, head (pd.index reqs1) = Some name ->
                pd.loc reqs1 name = pd.loc reqs2 name) ->
  outcome (run_all reqs1 beam k1) = outcome (run_all reqs2 beam k2).
Proof.
  intros Hhead Hloc.
  assert (forall reqs k0,
            run_all reqs beam k0 =
              k ← (k ← load reqs beam k0; create_tables k);
              k ← required_attenuation k;
              k ← maximum_repetition_rate k;
              store k) as Hrun
    by (intros reqs k0; unfold run_all; by destruct (load reqs beam k0)).
  rewrite !Hrun.
  apply bind_outcome; [by apply start_agree|].
  intros a1 a2 Ha.
  apply bind_outcome; [by apply required_attenuation_agree|].
  intros b1 b2 Hb.
  apply bind_outcome; [by apply maximum_repetition_rate_agree|].
  apply store_agree.
Qed.

End Agreement.

(** The cells of a finished run. *)
Section Cells.

Context (reqs beam : pd.DataFrame) (k0 k : Kernel).
Hypothesis Hwf : pd.wf beam.
Hypothesis Hsingle : single_row reqs.
Hypothesis Hrun : run_all reqs beam k0 = Ok k.

Lemma run_finished : finished reqs beam k0 k.
Proof.
  destruct Hsingle as (name & rest & Hindex & Hfresh).
  destruct (run_all_cases reqs beam name rest Hindex Hfresh Hwf k0)
    as [(c0 & _ & _ & H)|[(_ & _ & _ & H)|(_ & _ & k' & H & Hfin)]];
    rewrite Hrun in H; try done.
  by injection H as ->.
Qed.

Lemma cell_column (df : pd.DataFrame) (b : nat) (e : string) (v : float) :
  pd.cell df b e = Some v <->
  exists col, pd.data df !! e = Some col /\ col !! b = Some v.
Proof.
  unfold pd.cell. destruct (pd.data df !! e) as [col|]; simpl.
  - split; [by exists col|]. by intros (? & [= <-] & ?).
  - split; [done|]. by intros (? & ? & ?).
Qed.

Lemma beam_column_label (e : string) (col : list float) :
  pd.data beam !! e = Some col -> e ∈ pd.columns beam.
Proof. intros He. destruct Hwf as (_ & Hdom & _). apply Hdom. by eexists. Qed.

Lemma run_cells :
  exists mn mx,
    tables k = Some (mn, mx) /\
    (forall b e p,
        pd.cell beam b e = Some p ->
        exists t P,
          pd.cell reqs 0 e = Some t /\ pd.cell reqs 0 "Power" = Some P /\
          pd.cell mn b e = Some (attenuation_cell t p) /\
          pd.cell mx b e = Some (rate_cell P p (attenuation_cell t p))) /\
    (forall b e v, pd.cell mn b e = Some v -> is_Some (pd.cell beam b e)) /\
    (forall b e v, pd.cell mx b e = Some v ->
                   is_Some (pd.cell beam b e) /\ exists x, v = rint x).
Proof.
  destruct run_finished
    as (mn & mx & Hmn & Hmx & _ & _ & _ & _ & Hdmn & Hdmx & Hsome & _).
  exists mn, mx. split; [unfold tables; by rewrite Hmn, Hmx|].
  split; [|split].
  - intros b e p (col & Hcol & Hp)%cell_column.
    pose proof (beam_column_label e col Hcol) as He.
    destruct (Hsome e He) as [[acol Hacol] [rcol Hrcol]].
    specialize (Hdmn e). specialize (Hdmx e).
    rewrite decide_True in Hdmn, Hdmx by done.
    rewrite Hacol in Hdmn. rewrite Hrcol in Hdmx.
    unfold attenuation_column in Hacol. unfold rate_column, rate_sum_column in Hrcol.
    rewrite Hcol, Hdmn in *.
    destruct (pd.cell reqs 0 e) as [t|]; [|done].
    destruct (pd.cell reqs 0 "Power") as [P|]; [|done].
    injection Hacol as <-. simpl in Hrcol. injection Hrcol as <-.
    exists t, P. repeat split.
    + apply cell_column. eexists. split; [exact Hdmn|].
      by rewrite list_lookup_fmap, Hp.
    + apply cell_column. eexists. split; [exact Hdmx|].
      rewrite list_lookup_fmap, lookup_zip_with, !list_lookup_fmap, Hp. done.
  - intros b e v (col' & Hcol' & Hv)%cell_column.
    rewrite Hdmn in Hcol'. destruct (decide (e ∈ pd.columns beam)); [|done].
    unfold attenuation_column in Hcol'.
    destruct (pd.cell reqs 0 e) as [t|]; [|done].
    destruct (pd.data beam !! e) as [col|] eqn:Hcol; [|done].
    injection Hcol' as <-. rewrite list_lookup_fmap in Hv.
    destruct (col !! b) as [p|] eqn:Hp; [|done].
    exists p. apply cell_column. by exists col.
  - intros b e v (col' & Hcol' & Hv)%cell_column.
    rewrite Hdmx in Hcol'. destruct (decide (e ∈ pd.columns beam)); [|done].
    unfold rate_column, rate_sum_column in Hcol'.
    destruct (pd.cell reqs 0 "Power") as [P|]; [|done].
    destruct (pd.data beam !! e) as [col|] eqn:Hcol; [|done].
    destruct (pd.data mn !! e) as [acol|]; [|done].
    simpl in Hcol'. injection Hcol' as <-.
    rewrite list_lookup_fmap, lookup_zip_with, !list_lookup_fmap in Hv.
    destruct (col !! b) as [p|] eqn:Hp; [|done]. simpl in Hv.
    destruct (acol !! b) as [a|]; [|done]. simpl in Hv. injection Hv as <-.
    split; [|by eexists].
    exists p. apply cell_column. by exists col.
Qed.


End Cells.

(** * Checks of the arithmetic *)

Example rint_half : rint (div (of_Z 1) (of_Z 2)) = zero.
Proof. reflexivity. Qed.

Example rint_ties_to_even :
  rint (div (of_Z 3) (of_Z 2)) = of_Z 2 /\
  rint (div (of_Z 5) (of_Z 2)) = of_Z 2 /\
  rint (div (of_Z 7) (of_Z 2)) = of_Z 4 /\
  rint (div (of_Z (-7)) (of_Z 2)) = of_Z (-4).
Proof. repeat split; reflexivity. Qed.

Example rint_keeps_sign : rint (div (of_Z (-1)) (of_Z 4)) = neg_zero.
Proof. reflexivity. Qed.

Example around_two_decimals :
  around 2 (div (of_Z 1) (of_Z 8)) = div (of_Z 12) (of_Z 100) /\
  around 2 (div (of_Z 1) (of_Z 3)) = div (of_Z 33) (of_Z 100).
Proof. split; reflexivity. Qed.

(** * The scenario frames *)

Lemma frame_of_wf (idx : list string) (cols : list (string * list float)) :
  NoDup cols.*1 ->
  Forall (fun p => length p.2 = length idx) cols ->
  pd.wf (frame_of idx cols).
Proof.
  intros Hnd Hlen. unfold pd.wf, frame_of. cbn [pd.columns pd.data pd.index].
  split; [done|]. split.
  - intros c. split.
    + intros ((c' & col) & -> & Hin)%list_elem_of_fmap. exists col.
      by apply elem_of_list_to_map.
    + intros [col Hcol]. apply elem_of_list_to_map in Hcol; [|done].
      apply list_elem_of_fmap. by exists (c, col).
  - intros c col Hcol. apply elem_of_list_to_map in Hcol; [|done].
    eapply Forall_forall in Hlen; [|exact Hcol]. done.
Qed.

Lemma beam_12mJ_wf : pd.wf beam_12mJ.
Proof. apply frame_of_wf; [apply NoDup_singleton|by repeat constructor]. Qed.

Lemma beam_zero_wf : pd.wf beam_zero.
Proof. apply frame_of_wf; [apply NoDup_singleton|by repeat constructor]. Qed.



Lemma open_reqs_single : single_row open_reqs.
Proof. exists "OPEN", []. split; [done|]. apply not_elem_of_nil. Qed.


Lemma open_12mJ_run :
  run_all open_reqs beam_12mJ fresh = Ok (kernel_of open_reqs beam_12mJ).
Proof. vm_compute. reflexivity. Qed.

Lemma open_zero_run :
  run_all open_reqs beam_zero fresh = Ok (kernel_of open_reqs beam_zero).
Proof. vm_compute. reflexivity. Qed.

(** * Float facts behind the claims *)


Lemma positive_cases (t : float) :
  ltb zero t = true ->
  t = inf \/ exists m e, t = S754_finite false m e.
Proof.
  destruct t as [s|[]| |[] m e]; try done; [by left|].
  intros _. right. by exists m, e.
Qed.

Lemma attenuation_cell_zero (t : float) :
  ltb zero t = true -> attenuation_cell t zero = zero.
Proof. intros [->|(m & e & ->)]%positive_cases; reflexivity. Qed.


Example output_file_prefix : replace_space "OPEN BEAM" = "OPEN_BEAM".
Proof. reflexivity. Qed.

(** * The claims *)

(** C1, as stated, fails: with the requirement row [{"8.0": 10, Power: 5}]
    and a beam-power cell of 12000 in column "8.0", the repetition-rate
    table does not hold 417. *)
Lemma rate_of_12mJ_is_not_417 :
  rate_at open_reqs beam_12mJ 0 "8.0" <> Some (of_Z 417).
Proof. vm_compute. discriminate. Qed.

(** C1, amended: in that scenario the allowed transmission 10/12 rounds to
    0.83 and the minimum attenuation is the float [1 - 0.83], which is 0.17
    at two decimals; the quotient minus the attenuation lies between 416 and
    416.5, and the maximum repetition rate is 416. *)
Theorem scenario_12mJ :
  around 2 (clip (div (of_Z 10) (div (of_Z 12000) (of_Z 1000))))
    = div (of_Z 83) (of_Z 100) /\
  attenuation_at open_reqs beam_12mJ 0 "8.0"
    = Some (sub one (div (of_Z 83) (of_Z 100))) /\
  around 2 (sub one (div (of_Z 83) (of_Z 100))) = div (of_Z 17) (of_Z 100) /\
  (let unrounded :=
     sub (div (div (of_Z 5) (div (of_Z 12000) (of_Z 1000000))) (of_Z 1))
       (sub one (div (of_Z 83) (of_Z 100))) in
   ltb (of_Z 416) unrounded = true /\
   ltb unrounded (div (of_Z 833) (of_Z 2)) = true) /\
  rate_at open_reqs beam_12mJ 0 "8.0" = Some (of_Z 416).
Proof. repeat split; vm_compute; reflexivity. Qed.





(** C4, as stated, fails: a predicted pulse energy of negative zero is zero
    ([-0.0 == 0]), the tolerance 10 is positive, and the minimum attenuation
    of the cell is +infinity, not 0. *)
Lemma negative_zero_energy_attenuation :
  eqb neg_zero zero = true /\
  ltb zero (of_Z 10) = true /\
  pd.cell beam_neg_zero 0 "8.0" = Some neg_zero /\
  pd.cell open_reqs 0 "8.0" = Some (of_Z 10) /\
  attenuation_at open_reqs beam_neg_zero 0 "8.0" = Some inf /\
  eqb inf zero = false.
Proof. repeat split; vm_compute; reflexivity. Qed.

(** C4, amended: in a finished run, a cell whose predicted pulse energy is
    the positive zero [0.0] and whose tolerance is positive has minimum
    attenuation 0: the division by zero gives +infinity without raising, and
    the clamp turns it into 1. *)
Theorem zero_energy_attenuation (reqs beam : pd.DataFrame) (k0 k : Kernel) :
  pd.wf beam -> single_row reqs -> run_all reqs beam k0 = Ok k ->
  forall b e t,
    pd.cell beam b e = Some zero ->
    pd.cell reqs 0 e = Some t -> ltb zero t = true ->
    div t (div zero (of_Z 1000)) = inf /\
    clip inf = one /\
    exists mn mx, tables k = Some (mn, mx) /\ pd.cell mn b e = Some zero.
Proof.
  intros Hwf Hsingle Hrun b e t Hp Ht Hpos.
  split; [by apply positive_cases in Hpos as [->|(m & ex & ->)]|].
  split; [reflexivity|].
  destruct (run_cells reqs beam k0 k Hwf Hsingle Hrun)
    as (mn & mx & Htab & Hcells & _).
  destruct (Hcells b e zero Hp) as (t' & P & Htol & _ & Hmn & _).
  rewrite Ht in Htol. injection Htol as <-.
  exists mn, mx. split; [done|]. by rewrite Hmn, attenuation_cell_zero.
Qed.

Lemma zero_energy_attenuation_witness :
  div (of_Z 10) (div zero (of_Z 1000)) = inf /\
  clip inf = one /\
  exists mn mx,
    tables (kernel_of open_reqs beam_zero) = Some (mn, mx) /\
    pd.cell mn 0 "8.0" = Some zero.
Proof.
  apply (zero_energy_attenuation open_reqs beam_zero fresh
           (kernel_of open_reqs beam_zero)
           beam_zero_wf open_reqs_single open_zero_run 0%nat "8.0"
           (of_Z 10)); reflexivity.
Defined.

Lemma requirement_column_cell (reqs : pd.DataFrame) (c : string) :
  pd.wf reqs -> single_row reqs ->
  c ∈ pd.columns reqs <-> is_Some (pd.cell reqs 0 c).
Proof.
  intros (_ & Hdom & Hlen) (name & rest & Hindex & _). rewrite Hdom.
  unfold pd.cell. split.
  - intros [col Hcol]. rewrite Hcol. simpl.
    apply lookup_lt_is_Some. rewrite (Hlen c col Hcol), Hindex. simpl. lia.
  - destruct (pd.data reqs !! c) as [col|]; [by eexists|]. by intros [? ?].
Qed.




(** C6, as stated, fails: a tolerance of 0 and a predicted pulse energy of 0
    are non-negative, and the minimum attenuation of the cell is NaN, for
    which [0 <= x] does not hold. *)
Lemma zero_over_zero_attenuation :
  pd.cell closed_reqs 0 "8.0" = Some zero /\
  pd.cell beam_zero 0 "8.0" = Some zero /\
  leb zero zero = true /\
  attenuation_at closed_reqs beam_zero 0 "8.0" = Some nan /\
  leb zero nan = false.
Proof. repeat split; vm_compute; reflexivity. Qed.

(** C6, amended: in a finished run, for a non-negative tolerance and a
    non-negative predicted pulse energy, the cell has
    [0 <= min_attenuation <= 1], unless the predicted pulse energy is
    [-0.0] or the allowed transmission [tolerance / (predicted / 1000)] is
    NaN (0/0 or infinity/infinity). *)
Theorem attenuation_in_unit_interval (reqs beam : pd.DataFrame) (k0 k : Kernel) :
  pd.wf beam -> single_row reqs -> run_all reqs beam k0 = Ok k ->
  forall b e t p,
    pd.cell reqs 0 e = Some t -> pd.cell beam b e = Some p ->
    leb zero t = true -> leb zero p = true ->
    p <> neg_zero ->
    is_nan (div t (div p (of_Z 1000))) = false ->
    exists mn mx a,
      tables k = Some (mn, mx) /\ pd.cell mn b e = Some a /\
      leb zero a = true /\ leb a one = true.
Proof.
  intros Hwf Hsingle Hrun b e t p Ht Hp Htpos Hppos Hnz Hnan.
  destruct (run_cells reqs beam k0 k Hwf Hsingle Hrun)
    as (mn & mx & Htab & Hcells & _).
  destruct (Hcells b e p Hp) as (t' & P & Htol & _ & Hmn & _).
  rewrite Ht in Htol. injection Htol as <-.
  exists mn, mx, (attenuation_cell t p). split; [done|]. split; [done|].
  apply attenuation_range; [apply div_bounded|by apply transmission_nonneg].
Qed.

Lemma attenuation_in_unit_interval_witness :
  exists mn mx a,
    tables (kernel_of open_reqs beam_12mJ) = Some (mn, mx) /\
    pd.cell mn 0 "8.0" = Some a /\
    leb zero a = true /\ leb a one = true.
Proof.
  apply (attenuation_in_unit_interval open_reqs beam_12mJ fresh
           (kernel_of open_reqs beam_12mJ)
           beam_12mJ_wf open_reqs_single open_12mJ_run 0%nat "8.0"
           (of_Z 10) (of_Z 12000)); try reflexivity.
  vm_compute. discriminate.
Defined.




Lemma two_state_reqs_single : single_row two_state_reqs.
Proof.
  exists "OPEN", ["CLOSED"]. split; [done|].
  apply (bool_decide_unpack _). by vm_compute.
Qed.

Lemma first_row_lookup (idx : list string) (c k : string) (x : float)
    (xs : list float) (cols : list (string * list float)) :
  pd.cell (frame_of idx ((k, x :: xs) :: cols)) 0 c
  = if decide (k = c) then Some x else pd.cell (frame_of idx cols) 0 c.
Proof.
  unfold pd.cell, frame_of. cbn [pd.data list_to_map foldr uncurry].
  rewrite lookup_insert. cbn [fst snd]. by destruct (decide (k = c)).
Qed.



(** C9: the calculation is deterministic. For fixed requirements and
    beam-power tables, two runs end in the same way, with the same two
    tables or the same exception, whatever the kernel held before each of
    them; in particular when the second run starts in the kernel the first
    one left. *)
Theorem run_is_repeatable (reqs beam : pd.DataFrame) (k0 k1 : Kernel) :
  outcome (run_all reqs beam k0) = outcome (run_all reqs beam k1).
Proof. by apply run_all_agree. Qed.

(** C10, as stated, fails: [repeated_reqs] agrees with [open_reqs] on the
    first row and on its label, but its second row repeats the label; the
    run on [open_reqs] finishes and the run on [repeated_reqs] stops with a
    [ValueError]. *)
Lemma repeated_label_changes_result :
  head (pd.index open_reqs) = head (pd.index repeated_reqs) /\
  (forall c, pd.cell open_reqs 0 c = pd.cell repeated_reqs 0 c) /\
  outcome (run_all repeated_reqs beam_12mJ fresh) = Raise ValueError /\
  outcome (run_all open_reqs beam_12mJ fresh)
    <> outcome (run_all repeated_reqs beam_12mJ fresh).
Proof.
  split; [reflexivity|]. split; [|split].
  - intros c. unfold open_reqs, repeated_reqs. by rewrite !first_row_lookup.
  - vm_compute. reflexivity.
  - vm_compute. discriminate.
Qed.

(** C10, amended: for two requirements tables that agree on their first row
    and on its label, and in which no further row repeats that label, the
    runs end in the same way, with the same minimum-attenuation and
    maximum-repetition-rate tables, whatever the further rows hold. *)
Theorem first_row_decides (reqs1 reqs2 beam : pd.DataFrame) (k0 : Kernel) :
  single_row reqs1 -> single_row reqs2 ->
  head (pd.index reqs1) = head (pd.index reqs2) ->
  (forall c, pd.cell reqs1 0 c = pd.cell reqs2 0 c) ->
  outcome (run_all reqs1 beam k0) = outcome (run_all reqs2 beam k0).
Proof.
  intros (n1 & rest1 & Hi1 & Hf1) (n2 & rest2 & Hi2 & Hf2) Hhead Hrow.
  apply run_all_agree; [done|].
  intros name Hname. rewrite Hi1 in Hname, Hhead. rewrite Hi2 in Hhead.
  simpl in Hname, Hhead. injection Hname as <-. injection Hhead as <-.
  rewrite (loc_single reqs1 n1 rest1 Hi1 Hf1), (loc_single reqs2 n1 rest2 Hi2 Hf2).
  do 2 f_equal. apply map_eq. intros c. by rewrite !row_lookup.
Qed.

Lemma first_row_decides_witness :
  outcome (run_all open_reqs beam_12mJ fresh)
  = outcome (run_all two_state_reqs beam_12mJ fresh).
Proof.
  apply (first_row_decides open_reqs two_state_reqs beam_12mJ fresh
           open_reqs_single two_state_reqs_single).
  - reflexivity.
  - intros c. unfold open_reqs, two_state_reqs. by rewrite !first_row_lookup.
Defined.

(** * Properties of a whole run *)

Lemma for_each_result {A S : Type} (I : S -> Prop) (E : exn -> Prop)
    (body : A -> S -> result S) (xs : list A) (s : S) :
  I s ->
  (forall x s, x ∈ xs -> I s ->
               match body x s with Ok s' => I s' | Raise e => E e end) ->
  match for_each xs body s with Ok s' => I s' | Raise e => E e end.
Proof.
  revert s. induction xs as [|x xs IH]; intros s Hs Hbody; [done|].
  simpl. pose proof (Hbody x s (list_elem_of_here _ _) Hs) as Hx.
  destruct (body x s) as [s'|e]; [|done]. simpl.
  apply IH; [done|]. intros y t Hy. apply Hbody. by apply list_elem_of_further.
Qed.

Lemma attenuation_body_inv (c : string) (k k' : Kernel) :
  attenuation_body c k = Ok k' ->
  exists table table' v,
    min_attenuation k = Some table /\
    pd.setitem table c v = Ok table' /\
    k' = set_min_attenuation table' k.
Proof.
  unfold attenuation_body.
  destruct (max_reqs k); [|done]. destruct (state_name k); [|done]. simpl.
  destruct (pd.loc _ _); [|done]. simpl.
  destruct (pd.item _ _); [|done]. simpl.
  destruct (max_pulse k); [|done]. simpl.
  destruct (pd.getitem _ _); [|done]. simpl.
  destruct (min_attenuation k) as [table|]; [|done]. simpl.
  destruct (pd.setitem table c _) as [table'|] eqn:Hset; [|done]. simpl.
  intros [= <-]. by eexists table, table', _.
Qed.

Lemma rate_body_inv (c : string) (k k' : Kernel) :
  rate_body c k = Ok k' ->
  exists table table' v,
    max_pulse_rate k = Some table /\
    pd.setitem table c v = Ok table' /\
    k' = set_max_pulse_rate table' k.
Proof.
  unfold rate_body.
  destruct (max_reqs k); [|done]. destruct (state_name k); [|done]. simpl.
  destruct (pd.loc _ _); [|done]. simpl.
  destruct (pd.item _ _); [|done]. simpl.
  destruct (max_pulse k); [|done]. simpl.
  destruct (pd.getitem _ _); [|done]. simpl.
  destruct (min_attenuation k); [|done]. simpl.
  destruct (pd.getitem _ _); [|done]. simpl.
  destruct (max_pulse_rate k) as [table|]; [|done]. simpl.
  destruct (pd.setitem table c _) as [table'|] eqn:Hset; [|done]. simpl.
  intros [= <-]. by eexists table, table', _.
Qed.











Lemma setitem_shape (df df' : pd.DataFrame) (c : string) (v : pd.value) :
  pd.index df <> [] -> c ∈ pd.columns df ->
  pd.setitem df c v = Ok df' ->
  pd.index df' = pd.index df /\ pd.columns df' = pd.columns df.
Proof.
  intros Hidx Hc. unfold pd.setitem. destruct v as [x|s].
  - intros [= <-]. split; [done|]. by apply assign_columns.
  - assert (pd.ensure_valid_index df s = df) as ->.
    { unfold pd.ensure_valid_index. by destruct (pd.index df). }
    destruct (decide _); [|destruct (decide _); [|done]];
      intros [= <-]; (split; [done|by apply assign_columns]).
Qed.

Lemma attenuation_body_inputs (c : string) (k k' : Kernel) :
  attenuation_body c k = Ok k' -> same_inputs k k'.
Proof. intros (t & t' & v & _ & _ & ->)%attenuation_body_inv. by repeat split. Qed.

Lemma rate_body_inputs (c : string) (k k' : Kernel) :
  rate_body c k = Ok k' -> same_inputs k k'.
Proof. intros (t & t' & v & _ & _ & ->)%rate_body_inv. by repeat split. Qed.

Lemma for_each_inputs (body : string -> Kernel -> result Kernel)
    (cols : list string) (k k' : Kernel) :
  (forall c k k', body c k = Ok k' -> same_inputs k k') ->
  for_each cols body k = Ok k' -> same_inputs k k'.
Proof.
  intros Hbody Hrun.
  pose proof (for_each_result (same_inputs k) (fun _ => True) body cols k) as H.
  rewrite Hrun in H. apply H; [by repeat split|].
  intros c s _ (H1 & H2 & H3 & H4). destruct (body c s) as [s'|] eqn:Hs; [|done].
  destruct (Hbody c s s' Hs) as (G1 & G2 & G3 & G4).
  repeat split; congruence.
Qed.

(** X2: The input tables stay bound to what was loaded, and the files are
    written last: a finished run leaves [max_reqs], [max_pulse] and
    [state_name] as the loading cell set them and appends two files to the
    ones written before, named after the state with its spaces replaced,
    which hold the two tables of the kernel. *)
Theorem finished_run_files (reqs beam : pd.DataFrame) (k0 k : Kernel) :
  run_all reqs beam k0 = Ok k ->
  exists name mn mx,
    head (pd.index reqs) = Some name /\
    max_reqs k = Some reqs /\ max_pulse k = Some beam /\
    state_name k = Some name /\
    tables k = Some (mn, mx) /\
    written k = written k0 ++
                [(replace_space name +:+ "_min_attenuation.csv", mn);
                 (replace_space name +:+ "_max_rep_rate.csv", mx)].
Proof.
  unfold run_all, load, create_tables.
  destruct (pd.index reqs) as [|name rest]; [done|]. simpl.
  set (k1 := set_max_pulse_rate _ _).
  destruct (required_attenuation k1) as [k2|] eqn:H12; [|done]. simpl.
  destruct (maximum_repetition_rate k2) as [k3|] eqn:H23; [|done]. simpl.
  assert (same_inputs k1 k2) as (A1 & A2 & A3 & A4).
  { revert H12. unfold required_attenuation. simpl.
    destruct (for_each _ _ k1) as [ka|] eqn:Hloop; [|done]. simpl.
    apply for_each_inputs in Hloop as (B1 & B2 & B3 & B4);
      [|apply attenuation_body_inputs].
    destruct (min_attenuation ka); [|done]. simpl. intros [= <-].
    by repeat split. }
  assert (same_inputs k2 k3) as (C1 & C2 & C3 & C4).
  { revert H23. unfold maximum_repetition_rate. rewrite A2. simpl.
    destruct (for_each _ _ k2) as [kb|] eqn:Hloop; [|done]. simpl.
    apply for_each_inputs in Hloop as (B1 & B2 & B3 & B4);
      [|apply rate_body_inputs].
    destruct (max_pulse_rate kb); [|done]. simpl. intros [= <-].
    by repeat split. }
  unfold store. rewrite C3, A3. simpl.
  destruct (min_attenuation k3) as [mn|] eqn:Hmn; [|done]. simpl.
  destruct (max_pulse_rate k3) as [mx|] eqn:Hmx; [|done]. simpl.
  intros [= <-]. exists name, mn, mx. unfold tables. simpl.
  rewrite ?C1, ?C2, ?C3, ?C4, ?A1, ?A2, ?A3, ?A4, ?Hmn, ?Hmx. by repeat split.
Qed.

Lemma finished_run_files_witness :
  exists name mn mx,
    head (pd.index open_reqs) = Some name /\
    max_reqs (kernel_of open_reqs beam_12mJ) = Some open_reqs /\
    max_pulse (kernel_of open_reqs beam_12mJ) = Some beam_12mJ /\
    state_name (kernel_of open_reqs beam_12mJ) = Some name /\
    tables (kernel_of open_reqs beam_12mJ) = Some (mn, mx) /\
    written (kernel_of open_reqs beam_12mJ)
    = written fresh ++
      [(replace_space name +:+ "_min_attenuation.csv", mn);
       (replace_space name +:+ "_max_rep_rate.csv", mx)].
Proof.
  apply (finished_run_files open_reqs beam_12mJ fresh
           (kernel_of open_reqs beam_12mJ)).
  vm_compute. reflexivity.
Defined.

Lemma attenuation_body_shaped (beam : pd.DataFrame) (c : string) (k k' : Kernel) :
  pd.index beam <> [] -> c ∈ pd.columns beam ->
  shaped beam k -> attenuation_body c k = Ok k' -> shaped beam k'.
Proof.
  intros Hidx Hc (mn & mx & Hmn & Hmx & H1 & H2 & H3 & H4)
         (t & t' & v & Ht & Hset & ->)%attenuation_body_inv.
  rewrite Hmn in Ht. injection Ht as <-.
  apply setitem_shape in Hset as [G1 G2]; [|by rewrite H1|by rewrite H2].
  exists t', mx. simpl. repeat split; congruence.
Qed.

Lemma rate_body_shaped (beam : pd.DataFrame) (c : string) (k k' : Kernel) :
  pd.index beam <> [] -> c ∈ pd.columns beam ->
  shaped beam k -> rate_body c k = Ok k' -> shaped beam k'.
Proof.
  intros Hidx Hc (mn & mx & Hmn & Hmx & H1 & H2 & H3 & H4)
         (t & t' & v & Ht & Hset & ->)%rate_body_inv.
  rewrite Hmx in Ht. injection Ht as <-.
  apply setitem_shape in Hset as [G1 G2]; [|by rewrite H3|by rewrite H4].
  exists mn, t'. simpl. repeat split; congruence.
Qed.

Lemma for_each_shaped (beam : pd.DataFrame)
    (body : string -> Kernel -> result Kernel) (cols : list string)
    (k k' : Kernel) :
  (forall c k k', c ∈ cols -> shaped beam k -> body c k = Ok k' ->
                  shaped beam k') ->
  shaped beam k -> for_each cols body k = Ok k' -> shaped beam k'.
Proof.
  intros Hbody Hk Hrun.
  pose proof (for_each_result (shaped beam) (fun _ => True) body cols k Hk) as H.
  rewrite Hrun in H. apply H.
  intros c s Hc Hs. destruct (body c s) as [s'|] eqn:Hb; [|done].
  by eapply Hbody.
Qed.

(** X3: The labels of the derived tables, for any requirements table: when the
    beam-power table has at least one row, the two tables of a finished run
    carry its row labels and its column labels, in order. *)
Theorem labels_of_a_beam_with_rows (reqs beam : pd.DataFrame) (k0 k : Kernel) :
  pd.index beam <> [] -> run_all reqs beam k0 = Ok k ->
  exists mn mx,
    tables k = Some (mn, mx) /\
    pd.index mn = pd.index beam /\ pd.columns mn = pd.columns beam /\
    pd.index mx = pd.index beam /\ pd.columns mx = pd.columns beam.
Proof.
  intros Hidx. unfold run_all, load, create_tables.
  destruct (pd.index reqs) as [|name rest]; [done|]. simpl.
  set (k1 := set_max_pulse_rate _ _).
  assert (shaped beam k1) as Hk1 by (eexists _, _; by repeat split).
  destruct (required_attenuation k1) as [k2|] eqn:H12; [|done]. simpl.
  destruct (maximum_repetition_rate k2) as [k3|] eqn:H23; [|done]. simpl.
  assert (shaped beam k2 /\ max_pulse k2 = Some beam) as [Hk2 Hb2].
  { revert H12. unfold required_attenuation. simpl.
    destruct (for_each _ _ k1) as [ka|] eqn:Hloop; [|done]. simpl.
    pose proof (for_each_inputs _ _ _ _ attenuation_body_inputs Hloop)
      as (_ & B2 & _).
    apply (for_each_shaped beam) in Hloop;
      [|intros c s s' Hc; by apply attenuation_body_shaped|done].
    destruct Hloop as (mn & mx & Hmn & Hmx & G1 & G2 & G3 & G4).
    rewrite Hmn. simpl. intros [= <-]. split; [|done].
    eexists _, mx. simpl. by repeat split. }
  assert (shaped beam k3) as (mn & mx & Hmn & Hmx & G1 & G2 & G3 & G4).
  { revert H23. unfold maximum_repetition_rate. rewrite Hb2. simpl.
    destruct (for_each _ _ k2) as [kb|] eqn:Hloop; [|done]. simpl.
    apply (for_each_shaped beam) in Hloop;
      [|intros c s s' Hc; by apply rate_body_shaped|done].
    destruct Hloop as (mn & mx & Hmn & Hmx & G1 & G2 & G3 & G4).
    rewrite Hmx. simpl. intros [= <-]. eexists mn, _. simpl. by repeat split. }
  unfold store. destruct (state_name k3); [|done]. simpl.
  rewrite Hmn, Hmx. simpl. intros [= <-].
  exists mn, mx. unfold tables. simpl. rewrite ?Hmn, ?Hmx. by repeat split.
Qed.

Lemma labels_of_a_beam_with_rows_witness :
  exists mn mx,
    tables (kernel_of two_state_reqs beam_12mJ) = Some (mn, mx) /\
    pd.index mn = pd.index beam_12mJ /\ pd.columns mn = pd.columns beam_12mJ /\
    pd.index mx = pd.index beam_12mJ /\ pd.columns mx = pd.columns beam_12mJ.
Proof.
  apply (labels_of_a_beam_with_rows two_state_reqs beam_12mJ fresh
           (kernel_of two_state_reqs beam_12mJ)).
  - discriminate.
  - vm_compute. reflexivity.
Defined.

(** X4: The file-name prefix: [replace(' ', '_')] keeps the length and every
    other character, turns each space into an underscore, leaves no space
    behind, and changes nothing when applied again. *)
Theorem replace_space_spec (s : string) :
  String.length (replace_space s) = String.length s /\
  (forall i, String.get i (replace_space s) <> Some " "%char) /\
  (forall i c, String.get i s = Some c ->
               String.get i (replace_space s)
               = Some (if Ascii.eqb c " " then "_"%char else c)) /\
  replace_space (replace_space s) = replace_space s.
Proof.
  induction s as [|c s (IH1 & IH2 & IH3 & IH4)]; [by repeat split|].
  repeat split.
  - simpl. by rewrite IH1.
  - intros [|i]; simpl; [|apply IH2].
    destruct (Ascii.eqb_spec c " "); [done|congruence].
  - intros [|i] c'; simpl; [by intros [= ->]|apply IH3].
  - simpl. rewrite IH4. f_equal.
    destruct (Ascii.eqb_spec c " "); [done|].
    by destruct (Ascii.eqb_spec c " ").
Qed.

Lemma replace_space_spec_witness :
  String.get 4%nat (replace_space "OPEN BEAM") = Some "_"%char.
Proof.
  destruct (replace_space_spec "OPEN BEAM") as (_ & _ & Hget & _).
  apply (Hget 4%nat " "%char). reflexivity.
Defined.

(** X5: The column named by the [KeyError]: the first column of the beam-power
    table, in its column order, that the requirements table lacks, also
    when later columns or the column Power are missing too. *)
Theorem first_missing_column_is_reported (reqs beam : pd.DataFrame)
    (k0 : Kernel) (pre post : list string) (c0 : string) :
  pd.wf beam -> pd.wf reqs -> single_row reqs ->
  pd.columns beam = pre ++ c0 :: post ->
  (forall c, c ∈ pre -> c ∈ pd.columns reqs) ->
  c0 ∉ pd.columns reqs ->
  run_all reqs beam k0 = Raise (KeyError c0).
Proof.
  intros Hwf Hwfr Hsingle Hcols Hpre Hc0.
  pose proof (fun c => requirement_column_cell reqs c Hwfr Hsingle) as Hcol.
  destruct Hsingle as (name & rest & Hindex & Hfresh).
  rewrite (run_all_prepared reqs beam name rest Hindex).
  rewrite (required_attenuation_missing reqs beam name rest Hindex Hfresh Hwf
             pre post c0 k0 Hcols); [done| |].
  - apply Forall_forall. intros c Hc. by apply Hcol, Hpre.
  - destruct (pd.cell reqs 0 c0) eqn:Hcell; [|done].
    exfalso. apply Hc0, Hcol. by eexists.
Qed.

Lemma first_missing_column_is_reported_witness :
  run_all powerless_reqs beam_two_columns fresh = Raise (KeyError "9.0").
Proof.
  apply (first_missing_column_is_reported powerless_reqs beam_two_columns
           fresh ["8.0"] [] "9.0").
  - apply frame_of_wf; [|by repeat constructor].
    apply (bool_decide_unpack _). by vm_compute.
  - apply frame_of_wf; [apply NoDup_singleton|by repeat constructor].
  - exists "OPEN", []. split; [done|]. apply not_elem_of_nil.
  - reflexivity.
  - intros c Hc. apply list_elem_of_singleton in Hc as ->.
    apply (bool_decide_unpack _). by vm_compute.
  - apply (bool_decide_unpack _). by vm_compute.
Defined.



(** X7: A beam-power table without photon-energy columns: neither loop runs, no
    column of the requirements table is looked up (Power included), and the
    run finishes with two tables that have the rows of the beam-power table
    and no column. *)
Theorem beam_without_columns (reqs beam : pd.DataFrame) (k0 : Kernel) :
  pd.index reqs <> [] -> pd.columns beam = [] ->
  exists k mn mx,
    run_all reqs beam k0 = Ok k /\
    tables k = Some (mn, mx) /\
    pd.index mn = pd.index beam /\ pd.columns mn = [] /\ pd.data mn = ∅ /\
    pd.index mx = pd.index beam /\ pd.columns mx = [] /\ pd.data mx = ∅.
Proof.
  intros Hidx Hcols. unfold run_all, load, create_tables.
  destruct (pd.index reqs) as [|name rest]; [done|]. simpl.
  unfold required_attenuation, maximum_repetition_rate. simpl.
  repeat (rewrite Hcols; simpl).
  unfold store, tables. simpl.
  eexists _, _, _. split; [reflexivity|]. split; [reflexivity|].
  simpl. repeat split; by rewrite ?fmap_empty.
Qed.

Lemma beam_without_columns_witness :
  exists k mn mx,
    run_all powerless_reqs beam_no_columns fresh = Ok k /\
    tables k = Some (mn, mx) /\
    pd.index mn = pd.index beam_no_columns /\ pd.columns mn = [] /\
    pd.data mn = ∅ /\
    pd.index mx = pd.index beam_no_columns /\ pd.columns mx = [] /\
    pd.data mx = ∅.
Proof.
  apply (beam_without_columns powerless_reqs beam_no_columns fresh).
  - discriminate.
  - reflexivity.
Defined.

(** * Cells at the ends of the range *)




Lemma attenuation_cell_closed (t p : float) :
  eqb t zero = true -> ltb zero (div p (of_Z 1000)) = true ->
  attenuation_cell t p = one.
Proof.
  intros Ht Hd. unfold attenuation_cell.
  destruct t as [s|[]| |[] m e]; try done.
  destruct (div p (of_Z 1000)) as [sd|[]| |[] md ed]; try done;
    by destruct s.
Qed.


Lemma attenuation_cell_nan (t p : float) :
  is_nan t = true \/ is_nan p = true -> attenuation_cell t p = nan.
Proof.
  intros [Ht|Hp].
  - destruct t; try done;
      by destruct (div p (of_Z 1000)) as [[]|[]| |[] ? ?].
  - destruct p; try done; by destruct t as [[]|[]| |[] ? ?].
Qed.

Lemma rate_cell_nan (P p a : float) :
  is_nan P = true \/ is_nan p = true \/ is_nan a = true ->
  rate_cell P p a = nan.
Proof.
  unfold rate_cell. intros [HP|[Hp|Ha]].
  - destruct P; try done;
      destruct (div p (of_Z 1000000)) as [[]|[]| |[] ? ?];
      by destruct a as [[]|[]| |[] ? ?].
  - destruct p; try done;
      destruct P as [[]|[]| |[] ? ?]; by destruct a as [[]|[]| |[] ? ?].
  - destruct a; try done;
      by destruct (div (div P (div p (of_Z 1000000))) (of_Z 1))
        as [[]|[]| |[] ? ?].
Qed.


Lemma closed_12mJ_run :
  run_all closed_reqs beam_12mJ fresh = Ok (kernel_of closed_reqs beam_12mJ).
Proof. vm_compute. reflexivity. Qed.

Lemma open_nan_run :
  run_all open_reqs beam_nan fresh = Ok (kernel_of open_reqs beam_nan).
Proof. vm_compute. reflexivity. Qed.


Lemma beam_nan_wf : pd.wf beam_nan.
Proof. apply frame_of_wf; [apply NoDup_singleton|by repeat constructor]. Qed.

Lemma closed_reqs_single : single_row closed_reqs.
Proof. exists "CLOSED", []. split; [done|]. apply not_elem_of_nil. Qed.





(** X10: No beam allowed: in a finished run, a cell with a tolerance of zero
    (of either sign) and a positive [predicted / 1000] gets the attenuation
    1 exactly. *)
Theorem zero_tolerance (reqs beam : pd.DataFrame) (k0 k : Kernel) :
  pd.wf beam -> single_row reqs -> run_all reqs beam k0 = Ok k ->
  forall b e t p,
    pd.cell reqs 0 e = Some t -> pd.cell beam b e = Some p ->
    eqb t zero = true -> ltb zero (div p (of_Z 1000)) = true ->
    exists mn mx,
      tables k = Some (mn, mx) /\ pd.cell mn b e = Some one.
Proof.
  intros Hwf Hsingle Hrun b e t p Ht Hp Hzero Hpos.
  destruct (run_cells reqs beam k0 k Hwf Hsingle Hrun)
    as (mn & mx & Htab & Hcells & _).
  destruct (Hcells b e p Hp) as (t' & P & Htol & _ & Hmn & _).
  rewrite Ht in Htol. injection Htol as <-.
  exists mn, mx. split; [done|].
  by rewrite Hmn, (attenuation_cell_closed t p Hzero Hpos).
Qed.

Lemma zero_tolerance_witness :
  exists mn mx,
    tables (kernel_of closed_reqs beam_12mJ) = Some (mn, mx) /\
    pd.cell mn 0 "8.0" = Some one.
Proof.
  apply (zero_tolerance closed_reqs beam_12mJ fresh
           (kernel_of closed_reqs beam_12mJ)
           beam_12mJ_wf closed_reqs_single closed_12mJ_run 0%nat "8.0"
           zero (of_Z 12000)); reflexivity.
Defined.

(** X11: Empty cells spread: in a finished run, a NaN tolerance or a NaN
    predicted pulse energy gives NaN in both derived tables at that cell,
    and a NaN power tolerance gives NaN in every cell of the
    repetition-rate table. *)
Theorem nan_propagates (reqs beam : pd.DataFrame) (k0 k : Kernel) :
  pd.wf beam -> single_row reqs -> run_all reqs beam k0 = Ok k ->
  forall b e t P p,
    pd.cell reqs 0 e = Some t -> pd.cell reqs 0 "Power" = Some P ->
    pd.cell beam b e = Some p ->
    exists mn mx,
      tables k = Some (mn, mx) /\
      (is_nan t = true \/ is_nan p = true ->
       pd.cell mn b e = Some nan /\ pd.cell mx b e = Some nan) /\
      (is_nan P = true -> pd.cell mx b e = Some nan).
Proof.
  intros Hwf Hsingle Hrun b e t P p Ht HP Hp.
  destruct (run_cells reqs beam k0 k Hwf Hsingle Hrun)
    as (mn & mx & Htab & Hcells & _).
  destruct (Hcells b e p Hp) as (t' & P' & Htol & Hpow & Hmn & Hmx).
  rewrite Ht in Htol. injection Htol as <-.
  rewrite HP in Hpow. injection Hpow as <-.
  exists mn, mx. split; [done|]. split.
  - intros Hnan. rewrite Hmn, Hmx, (attenuation_cell_nan t p Hnan).
    split; [done|]. f_equal. apply rate_cell_nan. by right; right.
  - intros Hnan. rewrite Hmx. f_equal. apply rate_cell_nan. by left.
Qed.

Lemma nan_propagates_witness :
  exists mn mx,
    tables (kernel_of open_reqs beam_nan) = Some (mn, mx) /\
    pd.cell mn 0 "8.0" = Some nan /\ pd.cell mx 0 "8.0" = Some nan.
Proof.
  destruct (nan_propagates open_reqs beam_nan fresh
              (kernel_of open_reqs beam_nan)
              beam_nan_wf open_reqs_single open_nan_run 0%nat "8.0"
              (of_Z 10) (of_Z 5) nan eq_refl eq_refl eq_refl)
    as (mn & mx & Htab & Hcell & _).
  exists mn, mx. split; [exact Htab|]. apply Hcell. by right.
Defined.

(** * The cells of the requirements table the run reads *)

Lemma frame_eq (a b : pd.DataFrame) :
  pd.index a = pd.index b -> pd.columns a = pd.columns b ->
  (forall c, pd.data a !! c = pd.data b !! c) -> a = b.
Proof.
  destruct a as [ia ca da], b as [ib cb db]. simpl.
  intros -> -> Hdata. f_equal. by apply map_eq.
Qed.

Lemma finished_tables (reqs1 reqs2 beam : pd.DataFrame) (k1 k2 k1' k2' : Kernel) :
  (forall c, c ∈ pd.columns beam -> pd.cell reqs1 0 c = pd.cell reqs2 0 c) ->
  pd.cell reqs1 0 "Power" = pd.cell reqs2 0 "Power" ->
  finished reqs1 beam k1 k1' -> finished reqs2 beam k2 k2' ->
  tables k1' = tables k2'.
Proof.
  intros Hcells Hpower
    (mn1 & mx1 & Hmn1 & Hmx1 & Hi1 & Hc1 & Hj1 & Hd1 & Hdmn1 & Hdmx1 & _)
    (mn2 & mx2 & Hmn2 & Hmx2 & Hi2 & Hc2 & Hj2 & Hd2 & Hdmn2 & Hdmx2 & _).
  assert (mn1 = mn2) as <-.
  { apply frame_eq; [congruence|congruence|].
    intros c. rewrite Hdmn1, Hdmn2.
    destruct (decide (c ∈ pd.columns beam)) as [Hc|]; [|done].
    unfold attenuation_column. by rewrite (Hcells c Hc). }
  assert (mx1 = mx2) as <-.
  { apply frame_eq; [congruence|congruence|].
    intros c. rewrite Hdmx1, Hdmx2.
    destruct (decide (c ∈ pd.columns beam)) as [Hc|]; [|done].
    unfold rate_column, rate_sum_column. by rewrite Hpower. }
  unfold tables. by rewrite Hmn1, Hmx1, Hmn2, Hmx2.
Qed.

(** X12: Of the requirements table a run reads the first row only, and of that
    row only the cells under the column labels of the beam-power table and
    under Power: two requirements tables that name their state once and
    agree on these cells give the same two tables or the same exception,
    whatever their state names, further columns and further rows are. *)
Theorem only_named_cells_are_read (reqs1 reqs2 beam : pd.DataFrame)
    (k1 k2 : Kernel) :
  pd.wf beam -> single_row reqs1 -> single_row reqs2 ->
  (forall c, c ∈ pd.columns beam -> pd.cell reqs1 0 c = pd.cell reqs2 0 c) ->
  pd.cell reqs1 0 "Power" = pd.cell reqs2 0 "Power" ->
  outcome (run_all reqs1 beam k1) = outcome (run_all reqs2 beam k2).
Proof.
  intros Hwf (n1 & rest1 & Hi1 & Hf1) (n2 & rest2 & Hi2 & Hf2) Hcells Hpower.
  destruct (first_failing (fun c => is_Some (pd.cell reqs1 0 c)) (pd.columns beam))
    as [Hall|(pre & c0 & post & Hcols & Hpre & Hc0)].
  - assert (Forall (fun c => is_Some (pd.cell reqs2 0 c)) (pd.columns beam))
      as Hall2.
    { apply Forall_forall. intros c Hc. rewrite <- (Hcells c Hc).
      by eapply Forall_forall in Hall. }
    destruct (run_all_cases reqs1 beam n1 rest1 Hi1 Hf1 Hwf k1)
      as [(c1 & Hc1 & Hnone1 & _)|[(_ & Hne & Hnone1 & Hrun1)
                                  |(_ & Hp1 & k1' & Hrun1 & Hfin1)]].
    { eapply Forall_forall in Hall; [|exact Hc1].
      rewrite Hnone1 in Hall. by destruct Hall. }
    all: destruct (run_all_cases reqs2 beam n2 rest2 Hi2 Hf2 Hwf k2)
      as [(c2 & Hc2 & Hnone2 & _)|[(_ & Hne2 & Hnone2 & Hrun2)
                                  |(_ & Hp2 & k2' & Hrun2 & Hfin2)]].
    all: try (eapply Forall_forall in Hall2; [|exact Hc2];
              rewrite Hnone2 in Hall2; by destruct Hall2).
    + by rewrite Hrun1, Hrun2.
    + destruct Hp2 as [Hnil|Hsome]; [done|].
      rewrite <- Hpower, Hnone1 in Hsome. by destruct Hsome.
    + destruct Hp1 as [Hnil|Hsome]; [done|].
      rewrite Hpower, Hnone2 in Hsome. by destruct Hsome.
    + rewrite Hrun1, Hrun2. simpl. f_equal.
      by apply (finished_tables reqs1 reqs2 beam k1 k2).
  - assert (pd.cell reqs1 0 c0 = None) as Hnone1
      by (destruct (pd.cell reqs1 0 c0); [by destruct Hc0|done]).
    assert (c0 ∈ pd.columns beam) as Hin
      by (rewrite Hcols; apply elem_of_app; right; apply list_elem_of_here).
    assert (pd.cell reqs2 0 c0 = None) as Hnone2
      by (by rewrite <- (Hcells c0 Hin)).
    assert (Forall (fun c => is_Some (pd.cell reqs2 0 c)) pre) as Hpre2.
    { apply Forall_forall. intros c Hc. rewrite <- Hcells.
      - by eapply Forall_forall in Hpre.
      - rewrite Hcols. apply elem_of_app. by left. }
    rewrite (run_all_prepared reqs1 beam n1 rest1 Hi1).
    rewrite (run_all_prepared reqs2 beam n2 rest2 Hi2).
    rewrite (required_attenuation_missing reqs1 beam n1 rest1 Hi1 Hf1 Hwf
               pre post c0 k1 Hcols Hpre Hnone1).
    by rewrite (required_attenuation_missing reqs2 beam n2 rest2 Hi2 Hf2 Hwf
                  pre post c0 k2 Hcols Hpre2 Hnone2).
Qed.

Lemma only_named_cells_are_read_witness :
  outcome (run_all open_reqs beam_12mJ fresh)
  = outcome (run_all other_state_reqs beam_12mJ fresh).
Proof.
  apply (only_named_cells_are_read open_reqs other_state_reqs beam_12mJ
           fresh fresh beam_12mJ_wf open_reqs_single).
  - exists "IN", ["OUT"]. split; [done|].
    apply (bool_decide_unpack _). by vm_compute.
  - intros c Hc. apply list_elem_of_singleton in Hc as ->. reflexivity.
  - reflexivity.
Defined.

(** * The plot cell *)

(** X13: what the plot cell, which precedes both loops, takes from the
    requirements table when that table names its state once: without a
    column Power the cell stops at [drop] with a [KeyError]; with it, the
    table [energy] has the remaining columns in their order and the
    ordinates are the first-row cells of these columns, the tolerances the
    attenuation loop reads. *)
Theorem plot_cell_data (reqs beam : pd.DataFrame) (k0 k : Kernel) :
  single_row reqs ->
  (k ← load reqs beam k0; create_tables k) = Ok k ->
  ("Power" ∉ pd.columns reqs ->
   energy k = Raise (KeyError "['Power'] not found in axis") /\
   ordinates k = Raise (KeyError "['Power'] not found in axis")) /\
  ("Power" ∈ pd.columns reqs ->
   exists e r,
     energy k = Ok e /\ pd.index e = pd.index reqs /\
     pd.columns e = filter (fun c => c <> "Power") (pd.columns reqs) /\
     ordinates k = Ok (pd.Row r) /\
     forall c, r !! c = if decide (c = "Power") then None
                        else pd.cell reqs 0 c).
Proof.
  intros (name & rest & Hindex & Hfresh) Hload.
  unfold load in Hload. rewrite Hindex in Hload. injection Hload as <-.
  unfold ordinates, energy, drop. simpl. split.
  - intros Hnot. by rewrite decide_False.
  - intros Hin. rewrite decide_True by done. simpl.
    eexists _, _. split; [reflexivity|]. split; [done|]. split; [done|].
    split.
    + by apply (loc_single _ name rest).
    + intros c. rewrite lookup_omap. unfold pd.cell. simpl.
      destruct (decide (c = "Power")) as [->|Hc].
      * by rewrite lookup_delete_eq.
      * by rewrite lookup_delete_ne.
Qed.

Lemma plot_cell_data_witness :
  energy (prepared powerless_reqs beam_12mJ "OPEN" fresh)
  = Raise (KeyError "['Power'] not found in axis").
Proof.
  apply (plot_cell_data powerless_reqs beam_12mJ fresh
           (prepared powerless_reqs beam_12mJ "OPEN" fresh)).
  - exists "OPEN", []. split; [done|]. apply not_elem_of_nil.
  - reflexivity.
  - apply (bool_decide_unpack _). by vm_compute.
Defined.

(** * A state label that is repeated *)

Lemma positions_from_in (i : nat) (label : string) (idx : list string) :
  label ∈ idx -> pd.positions_from i label idx <> [].
Proof.
  revert i. induction idx as [|l idx IH]; intros i Hin.
  - by apply elem_of_nil in Hin.
  - simpl. destruct (decide (l = label)) as [->|Hne]; [done|].
    apply elem_of_cons in Hin as [->|Hin]; [done|]. by apply IH.
Qed.

Lemma positions_from_replicate (i n : nat) (label : string) :
  length (pd.positions_from i label (replicate n label)) = n.
Proof.
  revert i. induction n as [|n IH]; intros i; [done|].
  simpl. rewrite decide_True by done. simpl. by rewrite IH.
Qed.

Lemma loc_repeated (reqs : pd.DataFrame) (name : string) (rest : list string) :
  pd.index reqs = name :: rest -> name ∈ rest ->
  exists ps, (2 <= length ps)%nat /\
    pd.loc reqs name
    = Ok (pd.Rows {| pd.index := replicate (length ps) name;
                     pd.columns := pd.columns reqs;
                     pd.data := (fun col : list float =>
                                   omap (fun i : nat => col !! i) ps)
                                <$> pd.data reqs |}).
Proof.
  intros Hidx Hin. unfold pd.loc, pd.positions. rewrite Hidx. simpl.
  rewrite decide_True by done.
  pose proof (positions_from_in 1 name rest Hin) as Hne.
  destruct (pd.positions_from 1 name rest) as [|p ps] eqn:Hps; [done|].
  exists (0%nat :: p :: ps). split; [simpl; lia|done].
Qed.

Lemma cells_at_length (label : string) (s : pd.Series) :
  length (pd.cells_at label s)
  = Nat.max 1 (length (pd.positions label (pd.s_index s))).
Proof.
  unfold pd.cells_at.
  destruct (pd.positions label (pd.s_index s)) as [|i ps]; [done|].
  simpl. by rewrite !length_fmap.
Qed.

(** Aligning a column whose label is repeated gives a column whose label is
    repeated. *)
Lemma align_repeated (f : float -> float -> float) (a b : pd.Series)
    (name : string) (n : nat) :
  pd.s_index a = replicate n name -> (2 <= n)%nat ->
  name ∈ pd.s_index (pd.align f a b) /\
  ~ NoDup (pd.s_index (pd.align f a b)).
Proof.
  intros Ha Hn.
  assert (name ∈ pd.join_labels (pd.s_index a) (pd.s_index b)) as Hin.
  { unfold pd.join_labels. apply elem_of_remove_dups.
    rewrite merge_sort_Permutation, Ha. apply elem_of_app. left.
    destruct n as [|n]; [lia|]. apply list_elem_of_here. }
  apply list_elem_of_split in Hin as (l1 & l2 & Hsplit).
  pose proof (cells_at_length name a) as Hla.
  pose proof (cells_at_length name b) as Hlb.
  unfold pd.positions in Hla. rewrite Ha, positions_from_replicate in Hla.
  unfold pd.align. cbn [pd.s_index]. rewrite Hsplit.
  rewrite bind_app, bind_cons, !fmap_app.
  destruct (pd.cells_at name a) as [|x1 [|x2 xs]]; simpl in Hla; try lia.
  destruct (pd.cells_at name b) as [|y1 ys]; simpl in Hlb; try lia.
  rewrite !bind_cons. simpl. rewrite !fmap_app. simpl. split.
  - apply elem_of_app. right. apply list_elem_of_here.
  - intros Hnd. apply NoDup_app in Hnd as (_ & _ & Hnd).
    apply NoDup_cons in Hnd as (Hnot & _). apply Hnot.
    apply elem_of_app. left. apply elem_of_app. right.
    apply list_elem_of_here.
Qed.

(** The first pass of the first loop when the state label is repeated. *)
Lemma attenuation_body_repeated (reqs beam : pd.DataFrame) (k0 : Kernel)
    (name c : string) (rest : list string) :
  pd.wf reqs -> pd.wf beam ->
  pd.index reqs = name :: rest -> name ∈ rest ->
  pd.index beam <> [] -> name ∉ pd.index beam ->
  c ∈ pd.columns beam ->
  attenuation_body c (prepared reqs beam name k0)
  = Raise (if decide (c ∈ pd.columns reqs) then ValueError else KeyError c).
Proof.
  intros (_ & Hdomr & _) (_ & Hdomb & _) Hindex Hin Hrows Hlabel Hcb.
  unfold attenuation_body, prepared. simpl.
  destruct (loc_repeated reqs name rest Hindex Hin) as (ps & Hps & ->).
  simpl. unfold pd.getitem. cbn [pd.data]. rewrite lookup_fmap.
  destruct (decide (c ∈ pd.columns reqs)) as [Hc|Hc].
  - apply Hdomr in Hc as [col ->]. simpl.
    apply Hdomb in Hcb as [bcol Hbcol].
    rewrite Hbcol. simpl.
    rewrite decide_False.
    2:{ intros Heq. apply Hlabel. rewrite <- Heq.
        destruct (length ps); [lia|]. apply list_elem_of_here. }
    match goal with
    | |- context [pd.align div ?a ?b] =>
        destruct (align_repeated div a b name (length ps) eq_refl Hps)
          as [Hname Hdup]
    end.
    unfold pd.setitem, pd.ensure_valid_index. cbn [pd.index pd.full].
    destruct (pd.index beam) as [|b0 bs] eqn:Hbeam; [done|].
    cbn [pd.index].
    rewrite decide_False
      by (intros Heq; apply Hlabel; rewrite Heq in Hname; exact Hname).
    by rewrite decide_False.
  - destruct (pd.data reqs !! c) as [col|] eqn:Hcol; [|done].
    exfalso. apply Hc, Hdomr. by eexists.
Qed.

(** X14: A requirements table whose first row label occurs again further down
    gives no tables: for a beam-power table with rows, none of which
    carries that label, the run stops in the first pass of the first loop,
    with a [KeyError] if the requirements table lacks the first column of
    the beam-power table and a [ValueError] otherwise. *)
Theorem repeated_state_label (reqs beam : pd.DataFrame) (k0 : Kernel)
    (name c : string) (rest cs : list string) :
  pd.wf reqs -> pd.wf beam ->
  pd.index reqs = name :: rest -> name ∈ rest ->
  pd.index beam <> [] -> name ∉ pd.index beam ->
  pd.columns beam = c :: cs ->
  run_all reqs beam k0
  = Raise (if decide (c ∈ pd.columns reqs) then ValueError else KeyError c).
Proof.
  intros Hwfr Hwfb Hindex Hin Hrows Hlabel Hcols.
  rewrite (run_all_prepared reqs beam name rest Hindex).
  unfold required_attenuation. cbn [prepared max_pulse var mbind result_bind].
  rewrite Hcols. cbn [for_each mbind result_bind].
  rewrite (attenuation_body_repeated reqs beam k0 name c rest); try done.
  rewrite Hcols. apply list_elem_of_here.
Qed.

Lemma repeated_state_label_witness :
  run_all repeated_reqs beam_12mJ fresh = Raise ValueError.
Proof.
  apply (repeated_state_label repeated_reqs beam_12mJ fresh
           "OPEN" "8.0" ["OPEN"] []).
  - apply frame_of_wf; [|by repeat constructor].
    apply (bool_decide_unpack _). by vm_compute.
  - exact beam_12mJ_wf.
  - reflexivity.
  - apply list_elem_of_here.
  - discriminate.
  - apply (bool_decide_unpack _). by vm_compute.
  - reflexivity.
Defined.

(** * Executing a cell again *)

Lemma run_loaded (reqs beam : pd.DataFrame) (k0 k : Kernel)
    (name : string) (rest : list string) :
  pd.index reqs = name :: rest -> run_all reqs beam k0 = Ok k ->
  loaded reqs beam name k.
Proof.
  intros Hindex. unfold run_all, load, create_tables. rewrite Hindex. simpl.
  set (k1 := set_max_pulse_rate _ _).
  destruct (required_attenuation k1) as [k2|] eqn:H12; [|done]. simpl.
  destruct (maximum_repetition_rate k2) as [k3|] eqn:H23; [|done]. simpl.
  assert (same_inputs k1 k2) as (A1 & A2 & A3 & A4).
  { revert H12. unfold required_attenuation. simpl.
    destruct (for_each _ _ k1) as [ka|] eqn:Hloop; [|done]. simpl.
    apply for_each_inputs in Hloop as (B1 & B2 & B3 & B4);
      [|apply attenuation_body_inputs].
    destruct (min_attenuation ka); [|done]. simpl. intros [= <-].
    by repeat split. }
  assert (same_inputs k2 k3) as (C1 & C2 & C3 & C4).
  { revert H23. unfold maximum_repetition_rate. rewrite A2. simpl.
    destruct (for_each _ _ k2) as [kb|] eqn:Hloop; [|done]. simpl.
    apply for_each_inputs in Hloop as (B1 & B2 & B3 & B4);
      [|apply rate_body_inputs].
    destruct (max_pulse_rate kb); [|done]. simpl. intros [= <-].
    by repeat split. }
  unfold store. rewrite C3, A3. simpl.
  destruct (min_attenuation k3) as [mn|] eqn:Hmn; [|done]. simpl.
  destruct (max_pulse_rate k3) as [mx|] eqn:Hmx; [|done]. simpl.
  intros [= <-]. unfold loaded. simpl.
  rewrite ?C1, ?C2, ?C3, ?A1, ?A2, ?A3. by repeat split.
Qed.

(** X15: Executing the attenuation cell or the repetition-rate cell once more in
    the kernel a finished run has left changes nothing: both loops
    overwrite every column of their table with the value it was computed
    from. *)
Theorem cells_can_be_executed_again (reqs beam : pd.DataFrame)
    (k0 k : Kernel) :
  pd.wf beam -> single_row reqs -> run_all reqs beam k0 = Ok k ->
  required_attenuation k = Ok k /\ maximum_repetition_rate k = Ok k.
Proof.
  intros Hwf Hsingle Hrun.
  destruct (run_finished reqs beam k0 k Hwf Hsingle Hrun)
    as (mn & mx & Hmn & Hmx & Himn & Hcmn & Himx & Hcmx & Hdmn & Hdmx
        & Hsome & _).
  destruct Hsingle as (name & rest & Hindex & Hfresh).
  pose proof (run_loaded reqs beam k0 k name rest Hindex Hrun) as Hk.
  split.
  - destruct (attenuation_loop reqs beam name rest Hindex Hfresh
                (pd.columns beam) k mn Hk Hmn Himn)
      as (mn' & Hloop & Hi & Hc & Hd).
    { intros c Hc. by rewrite Hcmn. }
    { intros c Hc. destruct (Hsome c Hc) as [Hatt _].
      rewrite <- attenuation_column_eq in Hatt.
      by destruct (transmission_column reqs beam c). }
    unfold required_attenuation.
    destruct Hk as (H1 & H2 & H3). rewrite H2. simpl. rewrite Hloop. simpl.
    rewrite <- (set_min_attenuation_id k mn Hmn) at 2. f_equal.
    unfold set_min_attenuation. simpl. f_equal. f_equal.
    apply frame_eq; [simpl; congruence|simpl; congruence|].
    intros c. unfold pd.rsub, pd.round, pd.clip_above.
    rewrite !map_frame_lookup, Hd, Hdmn.
    destruct (decide (c ∈ pd.columns beam)); [|done].
    rewrite <- attenuation_column_eq.
    by destruct (transmission_column reqs beam c).
  - destruct (rate_loop reqs beam name rest Hindex Hfresh
                (pd.columns beam) k mn mx Hk Hmn Himn Hmx Himx)
      as (mx' & Hloop & Hi & Hc & Hd).
    { intros c Hc. by rewrite Hcmx. }
    { intros c Hc. destruct (Hsome c Hc) as [_ Hrate].
      unfold rate_column in Hrate.
      by destruct (rate_sum_column reqs beam mn c). }
    unfold maximum_repetition_rate.
    destruct Hk as (H1 & H2 & H3). rewrite H2. simpl. rewrite Hloop. simpl.
    rewrite <- (set_max_pulse_rate_id k mx Hmx) at 2. f_equal.
    unfold set_max_pulse_rate. simpl. f_equal. f_equal.
    apply frame_eq; [simpl; congruence|simpl; congruence|].
    intros c. unfold pd.round.
    rewrite map_frame_lookup, Hd, Hdmx.
    by destruct (decide (c ∈ pd.columns beam)).
Qed.

Lemma cells_can_be_executed_again_witness :
  required_attenuation (kernel_of open_reqs beam_12mJ)
  = Ok (kernel_of open_reqs beam_12mJ) /\
  maximum_repetition_rate (kernel_of open_reqs beam_12mJ)
  = Ok (kernel_of open_reqs beam_12mJ).
Proof.
  apply (cells_can_be_executed_again open_reqs beam_12mJ fresh
           (kernel_of open_reqs beam_12mJ)
           beam_12mJ_wf open_reqs_single open_12mJ_run).
Defined.
